(** * EntityHighlighter: range reconciliation and overlap-aware segmentation

    A shallow embedding of [src/components/EntityHighlighter.tsx].

    - JavaScript numbers that the component manipulates are text offsets and
      lengths; they are modelled as [Z].
    - A JavaScript string is a sequence of UTF-16 code units; it is modelled
      as a list of code units ([N]), so that [charCodeAt] and [length] are
      what they are in the source.
    - The [onChange] property is a callback: a handler is modelled as a
      function returning the arguments it passes to [onChange] (and what it
      writes to the console).
    - A call that does not return (unbounded recursion, [TypeError]) is
      modelled by [None]. *)

From Stdlib Require Import ZArith List Bool Lia String Ascii.
From Stdlib Require Import Orders Sorting.Sorted Sorting.Permutation Sorting.Mergesort.
Import ListNotations.
Open Scope Z_scope.

(** ** JavaScript strings and arrays *)

Definition jsstring := list N.

(** A string literal of the source, as its code units. *)
Definition js (s : string) : jsstring :=
  map N_of_ascii (list_ascii_of_string s).

(** [s.length] *)
Definition len {A : Type} (l : list A) : Z := Z.of_nat (List.length l).

(** [a === b] on strings. *)
Fixpoint str_eqb (a b : jsstring) : bool :=
  match a, b with
  | [], [] => true
  | x :: a', y :: b' => N.eqb x y && str_eqb a' b'
  | _, _ => false
  end.

(** [String.prototype.substring(a, b)]: both arguments are clamped to
    [0, length] and swapped when out of order. *)
Definition substring (s : jsstring) (a b : Z) : jsstring :=
  let finalStart := Z.min (Z.max a 0) (len s) in
  let finalEnd := Z.min (Z.max b 0) (len s) in
  let from := Z.min finalStart finalEnd in
  let to := Z.max finalStart finalEnd in
  firstn (Z.to_nat (to - from)) (skipn (Z.to_nat from) s).

(** Relative index resolution of [Array.prototype.slice]: a negative index
    counts from the end of the array. *)
Definition relIndex (length i : Z) : Z :=
  if i <? 0 then Z.max (length + i) 0 else Z.min i length.

(** [Array.prototype.slice(start, end)]; [end_ = None] is the one-argument
    form. *)
Definition slice {A : Type} (l : list A) (start : Z) (end_ : option Z) : list A :=
  let k := relIndex (len l) start in
  let final := match end_ with
               | None => len l
               | Some e => relIndex (len l) e
               end in
  firstn (Z.to_nat (final - k)) (skipn (Z.to_nat k) l).

(** [Array.prototype.findIndex]: the index of the first element satisfying
    the predicate, [-1] when there is none. *)
Fixpoint findIndexFrom {A : Type} (p : A -> bool) (l : list A) (k : Z) : Z :=
  match l with
  | [] => -1
  | x :: l' => if p x then k else findIndexFrom p l' (k + 1)
  end.

Definition findIndex {A : Type} (p : A -> bool) (l : list A) : Z :=
  findIndexFrom p l 0.

(** [arr[i]], [undefined] being [None]. *)
Definition element {A : Type} (l : list A) (i : Z) : option A :=
  if i <? 0 then None else nth_error l (Z.to_nat i).

(** [Array.prototype.sort((a, b) => a - b)] on numbers. *)
Module ZOrder := OTF_to_TTLB BinInt.Z.

Module ZSort := Sort ZOrder.

Definition sortAscending (l : list Z) : list Z := ZSort.sort l.

(** ** Failure: a small option monad *)

Definition bind {A B : Type} (m : option A) (f : A -> option B) : option B :=
  match m with
  | Some x => f x
  | None => None
  end.

Notation "x <- m ;; k" := (bind m (fun x => k))
  (at level 61, m at next level, right associativity).

Fixpoint mapM {A B : Type} (f : A -> option B) (l : list A) : option (list B) :=
  match l with
  | [] => Some []
  | x :: l' => y <- f x ;; ys <- mapM f l' ;; Some (y :: ys)
  end.

(** ** Data model *)

(** [Entity] is imported from [./App]; [addEntity] builds one from exactly
    these three fields. *)
Module Entity.
Record t : Type := mk { start : Z; end_ : Z; label : jsstring }.
End Entity.

Module Range.
Record t : Type := mk { start : Z; end_ : Z }.
End Range.

Module TextNode.
Record t : Type := mk { text : jsstring; color : string }.
End TextNode.

Module Color.
Record t : Type := mk { name : string; bg : string }.
End Color.

Definition colors : list Color.t :=
  [ Color.mk "blue" "#0074d9";
    Color.mk "navy" "#001f3f";
    Color.mk "lime" "#01ff70";
    Color.mk "teal" "#39cccc";
    Color.mk "olive" "#3d9970";
    Color.mk "fuchsia" "#f012be";
    Color.mk "red" "#ff4136";
    Color.mk "green" "#2ecc40";
    Color.mk "orange" "#ff851b";
    Color.mk "maroon" "#85144b";
    Color.mk "purple" "#b10dc9";
    Color.mk "yellow" "#ffdc00";
    Color.mk "aqua" "#7fdbff" ]%string.

(** ** hashString *)

(** [ToInt32]: reduction modulo 2^32 into the signed 32-bit range. *)
Definition toInt32 (z : Z) : Z :=
  let m := z mod 2 ^ 32 in
  if m <? 2 ^ 31 then m else m - 2 ^ 32.

(** [a << n] *)
Definition shl (a n : Z) : Z := toInt32 (Z.shiftl (toInt32 a) (n mod 32)).

(** [a & b] *)
Definition and32 (a b : Z) : Z := Z.land (toInt32 a) (toInt32 b).

(** One iteration of the loop of [hashString]. *)
Definition hashStep (hash : Z) (c : N) : Z :=
  let char := Z.of_N c in
  let hash := shl hash 5 - hash + char in
  and32 hash hash.

Definition hashString (str : jsstring) : Z :=
  let hash := 0 in
  if len str =? 0 then hash
  else
    let hash := fold_left hashStep str hash in
    if hash >? 0 then hash else - hash.

(** ** Classification of an entity against a range *)

Definition entityIsInsideRange (entity : Entity.t) (range : Range.t) : bool :=
  ((Entity.start entity >=? Range.start range) && (Entity.end_ entity <? Range.end_ range))
  || ((Entity.start entity >? Range.start range) && (Entity.end_ entity <=? Range.end_ range)).

Definition entityOverlapsWithRange (entity : Entity.t) (range : Range.t) : bool :=
  ((Entity.start entity <? Range.start range) && (Entity.end_ entity >? Range.start range)
     && (Entity.end_ entity <=? Range.end_ range))
  || ((Entity.start entity >=? Range.start range) && (Entity.start entity <? Range.end_ range)
        && (Entity.end_ entity >? Range.end_ range)).

Definition entityIsBeforeRange (entity : Entity.t) (range : Range.t) : bool :=
  (Entity.start entity <? Range.start range) && (Entity.end_ entity <=? Range.start range).

Definition entityIsBeyondRange (entity : Entity.t) (range : Range.t) : bool :=
  (Entity.start entity >=? Range.end_ range) && (Entity.start entity >? Range.start range).

Definition rangeIsInsideEntity (entity : Entity.t) (range : Range.t) : bool :=
  (Entity.start entity <=? Range.start range) && (Entity.end_ entity >=? Range.end_ range).

(** ** The component *)

Module HTMLTextAreaElement.
Record t : Type := mk { value : jsstring; selectionStart : Z; selectionEnd : Z }.
End HTMLTextAreaElement.

(** The [onChange] property is the callback; what a handler passes to it is
    part of the handler's result. *)
Record Props : Type := mkProps { text : jsstring; entities : list Entity.t }.

Record State : Type := mkState { entityLabelInputText : jsstring; cursorPosition : Z }.

Record EntityHighlighter : Type := mkComponent {
  props : Props;
  state : State;
  inputNode : HTMLTextAreaElement.t;
  selectionStart : Z;
  selectionEnd : Z
}.

(** What a handler does: the count it prints with
    [console.log(`Removing ${n} broken entities.`)], if it prints, and the
    two arguments of its call of [onChange]. *)
Record Effects : Type := mkEffects {
  consoleLog : option Z;
  onChange : jsstring * list Entity.t
}.

(** *** textChange *)

Definition textSizeDiff (this : EntityHighlighter) (event_target : HTMLTextAreaElement.t) : Z :=
  len (HTMLTextAreaElement.value event_target) - len (text (props this)).

(** The character range of the original text that the change replaced. *)
Definition originalRange (this : EntityHighlighter) (event_target : HTMLTextAreaElement.t)
  : Range.t :=
  let previousSelectionEnd := selectionEnd this in
  let previousSelectionStart := selectionStart this in
  let previousSelectionSize := previousSelectionEnd - previousSelectionStart in
  let newSelectionStart := HTMLTextAreaElement.selectionStart (inputNode this) in
  let newSelectionEnd := HTMLTextAreaElement.selectionEnd (inputNode this) in
  let textSizeDiff := textSizeDiff this event_target in
  let deletedBeforeCursor :=
    (previousSelectionSize =? 0) && (textSizeDiff <? 0)
    && (newSelectionEnd <? previousSelectionEnd) in
  let deletedAfterCursor :=
    (previousSelectionSize =? 0) && (textSizeDiff <? 0)
    && (newSelectionEnd =? previousSelectionEnd) in
  if deletedAfterCursor || deletedBeforeCursor
  then Range.mk newSelectionStart (newSelectionStart - textSizeDiff)
  else Range.mk previousSelectionStart previousSelectionEnd.

Definition brokenEntities (entities : list Entity.t) (originalRange : Range.t)
  : list Entity.t :=
  filter (fun entity => entityOverlapsWithRange entity originalRange
                        || entityIsInsideRange entity originalRange) entities.

Definition unchangedEntities (entities : list Entity.t) (originalRange : Range.t)
  : list Entity.t :=
  filter (fun entity => entityIsBeforeRange entity originalRange) entities.

Definition grow (textSizeDiff : Z) (entity : Entity.t) : Entity.t :=
  Entity.mk (Entity.start entity) (Entity.end_ entity + textSizeDiff) (Entity.label entity).

Definition shift (textSizeDiff : Z) (entity : Entity.t) : Entity.t :=
  Entity.mk (Entity.start entity + textSizeDiff) (Entity.end_ entity + textSizeDiff)
            (Entity.label entity).

Definition modifiedEntities (entities : list Entity.t) (originalRange : Range.t)
  (textSizeDiff : Z) : list Entity.t :=
  map (grow textSizeDiff)
      (filter (fun entity => rangeIsInsideEntity entity originalRange) entities).

Definition shiftedEntities (entities : list Entity.t) (originalRange : Range.t)
  (textSizeDiff : Z) : list Entity.t :=
  map (shift textSizeDiff)
      (filter (fun entity => entityIsBeyondRange entity originalRange) entities).

Definition newEntities (entities : list Entity.t) (originalRange : Range.t)
  (textSizeDiff : Z) : list Entity.t :=
  filter (fun entity => Entity.end_ entity >? Entity.start entity)
         (unchangedEntities entities originalRange
          ++ modifiedEntities entities originalRange textSizeDiff
          ++ shiftedEntities entities originalRange textSizeDiff).

Definition textChange (this : EntityHighlighter) (event_target : HTMLTextAreaElement.t)
  : Effects :=
  let newText := HTMLTextAreaElement.value event_target in
  let entities := entities (props this) in
  let textSizeDiff := textSizeDiff this event_target in
  let originalRange := originalRange this event_target in
  let brokenEntities := brokenEntities entities originalRange in
  mkEffects
    (if len brokenEntities >? 0 then Some (len brokenEntities) else None)
    (newText, newEntities entities originalRange textSizeDiff).

(** *** Segmentation *)

(** [getRanges(bounds, accumulator)].  The recursion stops on an array of
    exactly two bounds; on a shorter one the source recurses without end. *)
Fixpoint getRanges (bounds : list Z) (accumulator : list Range.t)
  : option (list Range.t) :=
  match bounds with
  | [b0; b1] =>
      Some (filter (fun range => Range.end_ range >? Range.start range)
                   (accumulator ++ [Range.mk b0 b1]))
  | b0 :: ((b1 :: _) as rest) => getRanges rest (accumulator ++ [Range.mk b0 b1])
  | _ => None
  end.

Definition rangeBelongsToEntities (entities : list Entity.t) (range : Range.t)
  : list Entity.t :=
  filter (fun entity => rangeIsInsideEntity entity range) entities.

Definition mixColorsMock : string := "#00ff00"%string.

(** [colors[i].bg] throws when [colors[i]] is [undefined]. *)
Definition getTextNodeColor (entitiesInRange : list Entity.t) : option string :=
  if len entitiesInRange =? 0 then Some EmptyString
  else if len entitiesInRange =? 1 then
    entity <- element entitiesInRange 0 ;;
    c <- element colors (Z.rem (hashString (Entity.label entity)) (len colors)) ;;
    Some (Color.bg c)
  else Some mixColorsMock.

(** The sorted boundary offsets of the entities. *)
Definition bounds (entities : list Entity.t) : list Z :=
  sortAscending (List.concat (map (fun entity => [Entity.start entity; Entity.end_ entity]) entities)).

(** The chunks of the text, as ranges. *)
Definition ranges (text : jsstring) (entities : list Entity.t) : option (list Range.t) :=
  getRanges (0 :: bounds entities ++ [len text]) [].

Definition textNode (text : jsstring) (entities : list Entity.t) (range : Range.t)
  : option TextNode.t :=
  let entitiesInRange := rangeBelongsToEntities entities range in
  color <- getTextNodeColor entitiesInRange ;;
  Some (TextNode.mk (substring text (Range.start range) (Range.end_ range)) color).

Definition getTextNodes (text : jsstring) (entities : list Entity.t)
  : option (list TextNode.t) :=
  ranges <- ranges text entities ;;
  mapM (textNode text entities) ranges.

(** *** Entity commands *)

Definition sameEntity (entity e : Entity.t) : bool :=
  (Entity.start e =? Entity.start entity) && (Entity.end_ e =? Entity.end_ entity)
  && str_eqb (Entity.label e) (Entity.label entity).

Definition deleteEntity (this : EntityHighlighter) (entity : Entity.t) : Effects :=
  let entities := entities (props this) in
  let text := text (props this) in
  let deleted := findIndex (sameEntity entity) entities in
  mkEffects None
    (text, slice entities 0 (Some deleted) ++ slice entities (deleted + 1) None).

Definition addEntity (this : EntityHighlighter) : Effects :=
  let text := text (props this) in
  let entities := entities (props this) in
  let newEntity :=
    Entity.mk (selectionStart this) (selectionEnd this)
              (entityLabelInputText (state this)) in
  mkEffects None (text, entities ++ [newEntity]).

(** *** Selection tracking and the controls *)

(** The target of a DOM event: the text area of the component, or any other
    element of the document ([target === this.inputNode] or not). *)
Inductive EventTarget : Type :=
| TheInputNode
| AnotherElement.

(** [setState] merges the given fields into the state. *)
Definition selectionChangeHandler (this : EntityHighlighter) (target : EventTarget)
  : EntityHighlighter :=
  match target with
  | TheInputNode =>
      let selectionStart := HTMLTextAreaElement.selectionStart (inputNode this) in
      let selectionEnd := HTMLTextAreaElement.selectionEnd (inputNode this) in
      mkComponent (props this)
                  (mkState (entityLabelInputText (state this)) selectionStart)
                  (inputNode this) selectionStart selectionEnd
  | AnotherElement => this
  end.

Definition entityLabelChanged (this : EntityHighlighter) (event_target_value : jsstring)
  : EntityHighlighter :=
  mkComponent (props this)
              (mkState event_target_value (cursorPosition (state this)))
              (inputNode this) (selectionStart this) (selectionEnd this).

Definition nothingIsSelected (this : EntityHighlighter) : bool :=
  selectionStart this =? selectionEnd this.

Definition entityAddControlsDisabled (this : EntityHighlighter) : bool :=
  selectionStart this =? selectionEnd this.

Definition findEntities (this : EntityHighlighter) (positionInText : Z) : list Entity.t :=
  filter (fun e => (Entity.start e <=? positionInText) && (Entity.end_ e >? positionInText))
         (entities (props this)).

(** *** Rendering *)

(** [uniqueKeyGenerator] closes over a counter; [getKey] returns the counter
    and increments it.  The counter is threaded: a call takes it and returns
    the key with the new counter. *)
Definition getKey (key : Z) : Z * Z := (key, key + 1).

(** A [span] of the highlight layer: its key, its background colour and its
    text (the opacity is the same constant for all). *)
Record Span : Type := mkSpan { key : Z; backgroundColor : string; children : jsstring }.

(** [textNode.color ? textNode.color : 'none']: the empty string is falsy. *)
Definition colorOrNone (color : string) : string :=
  match color with
  | EmptyString => "none"%string
  | _ => color
  end.

(** [textNodes.map(...)] of [renderHighlights], one call of [getKey] per
    node, in order. *)
Fixpoint renderSpans (textNodes : list TextNode.t) (counter : Z) : list Span * Z :=
  match textNodes with
  | [] => ([], counter)
  | textNode :: rest =>
      let (k, counter) := getKey counter in
      let span := mkSpan k (colorOrNone (TextNode.color textNode))
                         (TextNode.text textNode) in
      let (spans, counter) := renderSpans rest counter in
      (span :: spans, counter)
  end.

Definition renderHighlights (this : EntityHighlighter) (counter : Z)
  : option (list Span * Z) :=
  textNodes <- getTextNodes (text (props this)) (entities (props this)) ;;
  Some (renderSpans textNodes counter).

(** A line of [renderEntitiesUnderCursor]: the text of the entity, its label
    and the entity that its button passes to [deleteEntity]. *)
Record EntityRow : Type := mkRow {
  rowText : jsstring;
  rowLabel : jsstring;
  onClick : Entity.t
}.

(** [None] is [undefined]: nothing is rendered when no entity is under the
    cursor. *)
Definition renderEntitiesUnderCursor (this : EntityHighlighter) : option (list EntityRow) :=
  let entitiesUnderCursor := findEntities this (cursorPosition (state this)) in
  if len entitiesUnderCursor >? 0 then
    Some (map (fun e => mkRow (substring (text (props this)) (Entity.start e) (Entity.end_ e))
                              (Entity.label e) e)
              entitiesUnderCursor)
  else None.

(** ** Vocabulary of the statements *)

Definition validEntity (length : Z) (e : Entity.t) : Prop :=
  0 <= Entity.start e /\ Entity.start e < Entity.end_ e /\ Entity.end_ e <= length.

(** An initial component with the given properties and selections. *)
Definition component (text : jsstring) (entities : list Entity.t)
  (selectionStart selectionEnd : Z) (inputNode : HTMLTextAreaElement.t)
  : EntityHighlighter :=
  mkComponent (mkProps text entities) (mkState [] selectionStart)
              inputNode selectionStart selectionEnd.

Definition greeting : Entity.t := Entity.mk 0 5 (js "greeting").

(** The text area after typing [!] at offset 5 of [hello world]. *)
Definition helloBang : HTMLTextAreaElement.t :=
  HTMLTextAreaElement.mk (js "hello! world") 6 6.

(** The text area after replacing the selection [[2, 5)] of [hello] by
    [abc]. *)
Definition heabc : HTMLTextAreaElement.t :=
  HTMLTextAreaElement.mk (js "heabc") 5 5.

(** The text area after replacing the selection [[1, 4)] of [abcdefg] by
    [z]. *)
Definition azefg : HTMLTextAreaElement.t :=
  HTMLTextAreaElement.mk (js "azefg") 2 2.

(** The text area after deleting the first character of [hello]. *)
Definition ello : HTMLTextAreaElement.t :=
  HTMLTextAreaElement.mk (js "ello") 0 0.

(** The text area after typing [!] at offset 1 of [ab]. *)
Definition aBangB : HTMLTextAreaElement.t :=
  HTMLTextAreaElement.mk (js "a!b") 2 2.

(** The text area after typing [!] at offset 2 of [abcd]. *)
Definition abBangCd : HTMLTextAreaElement.t :=
  HTMLTextAreaElement.mk (js "ab!cd") 3 3.

(** The candidate ranges: the consecutive pairs of a list of bounds. *)
Fixpoint pairs (l : list Z) : list Range.t :=
  match l with
  | a :: ((b :: _) as rest) => Range.mk a b :: pairs rest
  | _ => []
  end.

Definition nonEmpty (range : Range.t) : bool :=
  Range.end_ range >? Range.start range.

(** The offset that [substring] uses for an argument. *)
Definition clamp (text : jsstring) (x : Z) : Z := Z.min (Z.max x 0) (len text).

(** The code units of the text from offset [i] to offset [j]. *)
Definition seg (text : jsstring) (i j : Z) : jsstring :=
  firstn (Z.to_nat (j - i)) (skipn (Z.to_nat i) text).

Definition chunk (text : jsstring) (range : Range.t) : jsstring :=
  substring text (Range.start range) (Range.end_ range).

(** Consecutive bounds are in order once clamped. *)
Fixpoint chain (text : jsstring) (a : Z) (l : list Z) : Prop :=
  match l with
  | [] => True
  | b :: l' => clamp text a <= clamp text b /\ chain text b l'
  end.

(** The hash as the specification words it: a 32-bit signed accumulation of
    [hash * 31 + charCode]; [hashString] is compared with its absolute
    value. *)
Definition hash31 (str : jsstring) : Z :=
  fold_left (fun hash c => toInt32 (hash * 31 + Z.of_N c)) str 0.

(** [r1] ends where [r2] starts, or earlier. *)
Definition precedes (r1 r2 : Range.t) : Prop := Range.end_ r1 <= Range.start r2.

(** No offset belongs to both ranges. *)
Definition disjoint (r1 r2 : Range.t) : Prop :=
  forall x, ~ ((Range.start r1 <= x /\ x < Range.end_ r1)
               /\ (Range.start r2 <= x /\ x < Range.end_ r2)).


(** The component as constructed: the selection fields are 0, the label
    input is empty and the cursor position is the selection start. *)
Definition mounted (props : Props) (inputNode : HTMLTextAreaElement.t) : EntityHighlighter :=
  mkComponent props (mkState [] 0) inputNode 0 0.

(** What can happen to a component between two renderings: the user moves
    the selection of the text area or edits it (the DOM node changes), the
    host passes new properties, or one of the two handlers that write the
    fields or the state runs. *)
Inductive reachable : EntityHighlighter -> Prop :=
| reach_mounted : forall props node, reachable (mounted props node)
| reach_dom : forall this node,
    reachable this ->
    reachable (mkComponent (props this) (state this) node
                           (selectionStart this) (selectionEnd this))
| reach_props : forall this props',
    reachable this ->
    reachable (mkComponent props' (state this) (inputNode this)
                           (selectionStart this) (selectionEnd this))
| reach_selection : forall this target,
    reachable this -> reachable (selectionChangeHandler this target)
| reach_label : forall this value,
    reachable this -> reachable (entityLabelChanged this value).

(** The state of a component with a given selection and label input. *)
Definition selecting (text : jsstring) (entities : list Entity.t)
  (selectionStart selectionEnd : Z) (label : jsstring) : EntityHighlighter :=
  mkComponent (mkProps text entities) (mkState label selectionStart)
              (HTMLTextAreaElement.mk text selectionStart selectionEnd)
              selectionStart selectionEnd.

(** The 32-bit signed range. *)
Definition int32 (z : Z) : Prop := - 2 ^ 31 <= z /\ z < 2 ^ 31.

(** The range contains the offset. *)
Definition inRange (range : Range.t) (x : Z) : Prop :=
  Range.start range <= x /\ x < Range.end_ range.

(** * Properties *)

(** ** Comparisons *)

Ltac to_prop :=
  repeat (rewrite ?andb_true_iff, ?orb_true_iff, ?andb_false_iff, ?orb_false_iff,
            ?Z.gtb_ltb, ?Z.geb_leb, ?Z.ltb_lt, ?Z.leb_le, ?Z.ltb_ge, ?Z.leb_gt,
            ?Z.eqb_eq, ?Z.eqb_neq in *).

Ltac classify :=
  unfold entityIsInsideRange, entityOverlapsWithRange, entityIsBeforeRange,
    entityIsBeyondRange, rangeIsInsideEntity in *;
  simpl in *; to_prop.

Lemma len_nonneg {A : Type} (l : list A) : 0 <= len l.
Proof. unfold len. lia. Qed.

Lemma len_app {A : Type} (l1 l2 : list A) : len (l1 ++ l2) = len l1 + len l2.
Proof. unfold len. rewrite length_app. lia. Qed.

Lemma str_eqb_eq (a b : jsstring) : str_eqb a b = true <-> a = b.
Proof.
  revert b. induction a as [|x a IH]; intros [|y b]; simpl; split; intro H;
    try reflexivity; try discriminate.
  - apply andb_true_iff in H. destruct H as [Hxy Hab].
    apply N.eqb_eq in Hxy. apply IH in Hab. congruence.
  - injection H as -> ->. rewrite N.eqb_refl. simpl. apply IH. reflexivity.
Qed.

(** ** Reconciliation: what [textChange] passes to [onChange] *)

Lemma textChange_onChange (this : EntityHighlighter) (ev : HTMLTextAreaElement.t) :
  onChange (textChange this ev)
  = (HTMLTextAreaElement.value ev,
     newEntities (entities (props this)) (originalRange this ev) (textSizeDiff this ev)).
Proof. reflexivity. Qed.

(** An entity of the new list is an old entity that was before the range,
    one that contained the range and was resized, or one beyond the range
    that was moved; and it is not empty. *)
Lemma In_newEntities (x : Entity.t) (es : list Entity.t) (r : Range.t) (d : Z) :
  In x (newEntities es r d) <->
  Entity.start x < Entity.end_ x /\
  ((In x es /\ entityIsBeforeRange x r = true)
   \/ (exists e, In e es /\ rangeIsInsideEntity e r = true /\ x = grow d e)
   \/ (exists e, In e es /\ entityIsBeyondRange e r = true /\ x = shift d e)).
Proof.
  unfold newEntities, unchangedEntities, modifiedEntities, shiftedEntities.
  rewrite filter_In, !in_app_iff, !in_map_iff, filter_In, Z.gtb_ltb, Z.ltb_lt.
  split.
  - intros [[H | [[e [He Hin]] | [e [He Hin]]]] Hlt]; split; try assumption.
    + left. exact H.
    + right. left. exists e. apply filter_In in Hin. intuition congruence.
    + right. right. exists e. apply filter_In in Hin. intuition congruence.
  - intros [Hlt [H | [[e [Hin [Hc ->]]] | [e [Hin [Hc ->]]]]]]; split; try assumption.
    + left. exact H.
    + right. left. exists e. rewrite filter_In. auto.
    + right. right. exists e. rewrite filter_In. auto.
Qed.

(** An entity that is in none of the three kept classes leaves no trace. *)
Lemma newEntities_skip (es1 es2 : list Entity.t) (e : Entity.t) (r : Range.t) (d : Z) :
  entityIsBeforeRange e r = false ->
  rangeIsInsideEntity e r = false ->
  entityIsBeyondRange e r = false ->
  newEntities (es1 ++ e :: es2) r d = newEntities (es1 ++ es2) r d.
Proof.
  intros Hb Hi Hy.
  unfold newEntities, unchangedEntities, modifiedEntities, shiftedEntities.
  rewrite !filter_app. simpl. rewrite Hb, Hi, Hy. reflexivity.
Qed.

Lemma overlap_not_before (e : Entity.t) (r : Range.t) :
  entityOverlapsWithRange e r = true -> entityIsBeforeRange e r = false.
Proof. intro H. classify. lia. Qed.

Lemma overlap_not_beyond (e : Entity.t) (r : Range.t) :
  entityOverlapsWithRange e r = true -> entityIsBeyondRange e r = false.
Proof. intro H. classify. lia. Qed.

(** The classes are not exclusive: an entity that ends where a point
    insertion happens is both before the range and around it. *)
Lemma before_and_around (e : Entity.t) (p : Z) :
  Entity.start e < p -> Entity.end_ e = p ->
  entityIsBeforeRange e (Range.mk p p) = true
  /\ rangeIsInsideEntity e (Range.mk p p) = true.
Proof. intros H1 H2. classify. lia. Qed.

(** C1 (the code departs from the claim).  For the text [hello world] with
    the single entity [{start: 0, end: 5, label: greeting}], typing [!] at
    offset 5 gives the range [[5, 5)] and the size difference [+1]; the
    claim is that [onChange] receives the entity unchanged and nothing else.
    [textChange] keeps the entity unchanged, because it is before the range,
    and also passes a second copy grown to [{0, 6}], because the same entity
    satisfies [rangeIsInsideEntity]. *)
Theorem C1_textChange_insert_at_entity_end :
  let this := component (js "hello world") [greeting] 5 5 helloBang in
  originalRange this helloBang = Range.mk 5 5
  /\ textSizeDiff this helloBang = 1
  /\ entityIsBeforeRange greeting (Range.mk 5 5) = true
  /\ rangeIsInsideEntity greeting (Range.mk 5 5) = true
  /\ onChange (textChange this helloBang)
     = (js "hello! world", [greeting; Entity.mk 0 6 (js "greeting")])
  /\ snd (onChange (textChange this helloBang)) <> [greeting].
Proof.
  cbv zeta. repeat split; try reflexivity.
  vm_compute. discriminate.
Qed.

(** C3, as stated, fails: the entity [{0, 5}] satisfies the
    overlapping-boundary condition for the range [[2, 5)] (first disjunct,
    with [e.end = r.end]) and is counted among the broken entities, yet it
    contains the range, so it is kept as a modified entity and is in the
    list passed to [onChange]. *)
Lemma C3_counterexample :
  let e := Entity.mk 0 5 (js "x") in
  let this := component (js "hello") [e] 2 5 heabc in
  originalRange this heabc = Range.mk 2 5
  /\ entityOverlapsWithRange e (Range.mk 2 5) = true
  /\ consoleLog (textChange this heabc) = Some 1
  /\ In e (snd (onChange (textChange this heabc))).
Proof.
  cbv zeta. repeat split; try reflexivity.
  vm_compute. left. reflexivity.
Qed.

(** C3 (amended).  An entity that satisfies the overlapping-boundary
    condition of [entityOverlapsWithRange] and does not contain the range
    ([rangeIsInsideEntity] is false) is dropped: [onChange] receives exactly
    what it would receive if the entity had not been in the list.  In
    particular the entity [{start: 2, end: 5}] alone, with the range
    [[1, 4)], gives the empty list. *)
Theorem C3_overlapping_entity_dropped :
  (forall (text : jsstring) (es1 es2 : list Entity.t) (e : Entity.t) (st : State)
          (node : HTMLTextAreaElement.t) (selStart selEnd : Z)
          (ev : HTMLTextAreaElement.t),
      let this := mkComponent (mkProps text (es1 ++ e :: es2)) st node selStart selEnd in
      let without := mkComponent (mkProps text (es1 ++ es2)) st node selStart selEnd in
      entityOverlapsWithRange e (originalRange this ev) = true ->
      rangeIsInsideEntity e (originalRange this ev) = false ->
      onChange (textChange this ev) = onChange (textChange without ev))
  /\ (forall (this : EntityHighlighter) (ev : HTMLTextAreaElement.t) (label : jsstring),
         entities (props this) = [Entity.mk 2 5 label] ->
         originalRange this ev = Range.mk 1 4 ->
         snd (onChange (textChange this ev)) = []).
Proof.
  split.
  - intros text es1 es2 e st node selStart selEnd ev this without Ho Hi.
    rewrite !textChange_onChange. f_equal.
    change (originalRange without ev) with (originalRange this ev).
    change (textSizeDiff without ev) with (textSizeDiff this ev).
    apply newEntities_skip.
    + apply overlap_not_before. exact Ho.
    + exact Hi.
    + apply overlap_not_beyond. exact Ho.
  - intros this ev label Hes Hr.
    rewrite textChange_onChange. simpl. rewrite Hes, Hr. reflexivity.
Qed.

Lemma C3_overlapping_entity_dropped_witness :
  onChange (textChange (component (js "abcdefg")
                          ([Entity.mk 0 1 (js "a")] ++ Entity.mk 2 5 (js "b")
                             :: [Entity.mk 5 7 (js "c")]) 1 4 azefg) azefg)
  = onChange (textChange (component (js "abcdefg")
                            ([Entity.mk 0 1 (js "a")] ++ [Entity.mk 5 7 (js "c")])
                            1 4 azefg) azefg)
  /\ snd (onChange (textChange (component (js "abcdefg") [Entity.mk 2 5 (js "b")] 1 4 azefg)
                      azefg)) = [].
Proof.
  split.
  - apply (proj1 C3_overlapping_entity_dropped); reflexivity.
  - apply (proj2 C3_overlapping_entity_dropped) with (label := js "b"); reflexivity.
Defined.

(** ** The span invariant *)

(** C4.  When every old entity satisfies [0 <= start < end <= oldText.length],
    the range satisfies [0 <= r.start <= r.end <= oldText.length] and the
    size difference (new length minus old length) is at least
    [-(r.end - r.start)], every entity passed to [onChange] satisfies
    [0 <= start < end <= newText.length]. *)
Theorem C4_span_invariant_preserved
  (this : EntityHighlighter) (ev : HTMLTextAreaElement.t) :
  let r := originalRange this ev in
  let oldText := text (props this) in
  let newText := HTMLTextAreaElement.value ev in
  Forall (validEntity (len oldText)) (entities (props this)) ->
  0 <= Range.start r -> Range.start r <= Range.end_ r -> Range.end_ r <= len oldText ->
  len newText = len oldText + textSizeDiff this ev ->
  textSizeDiff this ev >= - (Range.end_ r - Range.start r) ->
  Forall (validEntity (len newText)) (snd (onChange (textChange this ev))).
Proof.
  intros r oldText newText Hold Hr0 Hr1 Hr2 Hlen Hd.
  rewrite textChange_onChange. simpl. fold r.
  apply Forall_forall. intros x Hx.
  rewrite Forall_forall in Hold.
  apply In_newEntities in Hx.
  destruct Hx as [Hlt [[Hin Hc] | [[e [Hin [Hc ->]]] | [e [Hin [Hc ->]]]]]].
  - destruct (Hold x Hin) as [H0 [H1 H2]].
    unfold validEntity. classify. lia.
  - destruct (Hold e Hin) as [H0 [H1 H2]].
    unfold validEntity, grow in *. classify. lia.
  - destruct (Hold e Hin) as [H0 [H1 H2]].
    unfold validEntity, shift in *. classify. lia.
Qed.

Lemma C4_span_invariant_preserved_witness :
  Forall (validEntity 5)
         (snd (onChange (textChange
                           (component (js "abcdefg")
                              [Entity.mk 0 1 (js "a"); Entity.mk 0 7 (js "b");
                               Entity.mk 5 7 (js "c")] 1 4 azefg) azefg))).
Proof.
  apply (C4_span_invariant_preserved
           (component (js "abcdefg")
              [Entity.mk 0 1 (js "a"); Entity.mk 0 7 (js "b"); Entity.mk 5 7 (js "c")]
              1 4 azefg) azefg); simpl.
  - repeat constructor; vm_compute; congruence.
  - lia.
  - lia.
  - vm_compute. congruence.
  - reflexivity.
  - vm_compute. congruence.
Defined.

(** ** Entities around and beyond the range *)

(** C7.  An entity that contains the range ([e.start <= r.start] and
    [e.end >= r.end]) is passed to [onChange] with its start unchanged and
    its end increased by the size difference, provided that the new end is
    still greater than the start.  For the text [hello] with the entity
    [{0, 5, x}], deleting the character at offset 0 (with backspace from
    offset 1, or with forward delete at offset 0) gives the range [[0, 1)],
    the size difference [-1] and the single entity [{0, 4, x}]. *)
Theorem C7_range_inside_entity_resizes :
  (forall (this : EntityHighlighter) (ev : HTMLTextAreaElement.t) (e : Entity.t),
      In e (entities (props this)) ->
      rangeIsInsideEntity e (originalRange this ev) = true ->
      Entity.end_ e + textSizeDiff this ev > Entity.start e ->
      In (Entity.mk (Entity.start e) (Entity.end_ e + textSizeDiff this ev) (Entity.label e))
         (snd (onChange (textChange this ev))))
  /\ (forall cursor : Z, cursor = 0 \/ cursor = 1 ->
        let this := component (js "hello") [Entity.mk 0 5 (js "x")] cursor cursor ello in
        originalRange this ello = Range.mk 0 1
        /\ textSizeDiff this ello = -1
        /\ rangeIsInsideEntity (Entity.mk 0 5 (js "x")) (Range.mk 0 1) = true
        /\ onChange (textChange this ello) = (js "ello", [Entity.mk 0 4 (js "x")])).
Proof.
  split.
  - intros this ev e Hin Hc Hlt.
    rewrite textChange_onChange. simpl.
    apply In_newEntities. split.
    + simpl. lia.
    + right. left. exists e. auto.
  - intros cursor [-> | ->]; cbv zeta; repeat split; reflexivity.
Qed.

Lemma C7_range_inside_entity_resizes_witness :
  In (Entity.mk 0 4 (js "x"))
     (snd (onChange (textChange (component (js "hello") [Entity.mk 0 5 (js "x")] 1 1 ello)
                       ello)))
  /\ onChange (textChange (component (js "hello") [Entity.mk 0 5 (js "x")] 0 0 ello) ello)
     = (js "ello", [Entity.mk 0 4 (js "x")]).
Proof.
  split.
  - apply (proj1 C7_range_inside_entity_resizes
             (component (js "hello") [Entity.mk 0 5 (js "x")] 1 1 ello) ello
             (Entity.mk 0 5 (js "x"))).
    + left. reflexivity.
    + reflexivity.
    + reflexivity.
  - apply (proj2 C7_range_inside_entity_resizes 0). left. reflexivity.
Defined.

(** C8, as stated, fails: in [ab] the entity [{1, 2, x}] covers [b], which
    lies entirely after the insertion point 1; typing [!] there gives the
    range [[1, 1)] and the size difference [+1], and the entity is passed to
    [onChange] as [{1, 3, x}] (resized, covering the inserted character),
    not as [{2, 3, x}]: [entityIsBeyondRange] asks for [e.start > r.start]. *)
Lemma C8_counterexample :
  let e := Entity.mk 1 2 (js "x") in
  let this := component (js "ab") [e] 1 1 aBangB in
  originalRange this aBangB = Range.mk 1 1
  /\ textSizeDiff this aBangB = 1
  /\ 1 <= Entity.start e
  /\ snd (onChange (textChange this aBangB)) = [Entity.mk 1 3 (js "x")]
  /\ ~ In (Entity.mk (Entity.start e + 1) (Entity.end_ e + 1) (Entity.label e))
          (snd (onChange (textChange this aBangB))).
Proof.
  cbv zeta.
  split; [reflexivity|]. split; [reflexivity|].
  split; [simpl; lia|]. split; [reflexivity|].
  vm_compute. intros [H | []]. discriminate H.
Qed.

(** C8 (amended).  For a pure insertion of [k] characters at a point [p]
    (range [[p, p)], size difference [k]), every non-empty entity that
    starts strictly after [p] is passed to [onChange] with start and end
    both increased by [k]; and for every edit, every non-empty entity that
    ends at or before the start of the range is passed to [onChange] with
    start, end and label unchanged. *)
Theorem C8_pure_shift :
  (forall (this : EntityHighlighter) (ev : HTMLTextAreaElement.t) (p k : Z) (e : Entity.t),
      originalRange this ev = Range.mk p p ->
      textSizeDiff this ev = k ->
      In e (entities (props this)) ->
      Entity.start e < Entity.end_ e ->
      p < Entity.start e ->
      In (Entity.mk (Entity.start e + k) (Entity.end_ e + k) (Entity.label e))
         (snd (onChange (textChange this ev))))
  /\ (forall (this : EntityHighlighter) (ev : HTMLTextAreaElement.t) (e : Entity.t),
         In e (entities (props this)) ->
         Entity.start e < Entity.end_ e ->
         Entity.end_ e <= Range.start (originalRange this ev) ->
         In e (snd (onChange (textChange this ev)))).
Proof.
  split.
  - intros this ev p k e Hr Hk Hin Hlt Hp.
    rewrite textChange_onChange. simpl. rewrite Hr, Hk.
    apply In_newEntities. split.
    + simpl. lia.
    + right. right. exists e. repeat split; try assumption.
      classify. lia.
  - intros this ev e Hin Hlt Hb.
    rewrite textChange_onChange. simpl.
    apply In_newEntities. split; [exact Hlt|].
    left. split; [exact Hin|]. classify. lia.
Qed.

Lemma C8_pure_shift_witness :
  In (Entity.mk 4 5 (js "y"))
     (snd (onChange (textChange
                       (component (js "abcd")
                          [Entity.mk 0 1 (js "x"); Entity.mk 3 4 (js "y")] 2 2 abBangCd)
                       abBangCd)))
  /\ In (Entity.mk 0 1 (js "x"))
        (snd (onChange (textChange
                          (component (js "abcd")
                             [Entity.mk 0 1 (js "x"); Entity.mk 3 4 (js "y")] 2 2 abBangCd)
                          abBangCd))).
Proof.
  split.
  - apply (proj1 C8_pure_shift
             (component (js "abcd") [Entity.mk 0 1 (js "x"); Entity.mk 3 4 (js "y")]
                2 2 abBangCd)
             abBangCd 2 1 (Entity.mk 3 4 (js "y"))).
    + reflexivity.
    + reflexivity.
    + right. left. reflexivity.
    + reflexivity.
    + reflexivity.
  - apply (proj2 C8_pure_shift
             (component (js "abcd") [Entity.mk 0 1 (js "x"); Entity.mk 3 4 (js "y")]
                2 2 abBangCd)
             abBangCd (Entity.mk 0 1 (js "x"))).
    + left. reflexivity.
    + reflexivity.
    + simpl. vm_compute. congruence.
Defined.

(** ** Entity commands *)

Section Slices.

Context {A : Type}.

Lemma findIndexFrom_none (p : A -> bool) (l : list A) (k : Z) :
  (forall x, In x l -> p x = false) -> findIndexFrom p l k = -1.
Proof.
  revert k. induction l as [|x l IH]; intros k H; simpl.
  - reflexivity.
  - rewrite (H x (or_introl eq_refl)). apply IH.
    intros y Hy. apply H. right. exact Hy.
Qed.

Lemma findIndexFrom_first (p : A -> bool) (l1 l2 : list A) (x : A) (k : Z) :
  (forall y, In y l1 -> p y = false) -> p x = true ->
  findIndexFrom p (l1 ++ x :: l2) k = k + len l1.
Proof.
  revert k. induction l1 as [|y l1 IH]; intros k H Hx; cbn [findIndexFrom app].
  - rewrite Hx. unfold len. simpl. lia.
  - rewrite (H y (or_introl eq_refl)). rewrite IH.
    + unfold len. rewrite length_cons. lia.
    + intros z Hz. apply H. right. exact Hz.
    + exact Hx.
Qed.

Lemma relIndex_nonneg (n i : Z) : 0 <= i -> relIndex n i = Z.min i n.
Proof. intro H. unfold relIndex. destruct (Z.ltb_spec i 0); [lia | reflexivity]. Qed.

Lemma relIndex_neg (n i : Z) : i < 0 -> relIndex n i = Z.max (n + i) 0.
Proof. intro H. unfold relIndex. destruct (Z.ltb_spec i 0); [reflexivity | lia]. Qed.

Lemma slice_prefix (l1 l2 : list A) (x : A) :
  slice (l1 ++ x :: l2) 0 (Some (len l1)) = l1.
Proof.
  pose proof (len_nonneg l1). pose proof (len_nonneg (x :: l2)).
  unfold slice. rewrite !relIndex_nonneg by lia. rewrite len_app.
  replace (Z.min (len l1) (len l1 + len (x :: l2)) - Z.min 0 (len l1 + len (x :: l2)))
    with (len l1) by lia.
  replace (Z.min 0 (len l1 + len (x :: l2))) with 0 by lia.
  simpl skipn. unfold len. rewrite Nat2Z.id.
  rewrite firstn_app, Nat.sub_diag, firstn_O, firstn_all. apply app_nil_r.
Qed.

Lemma slice_suffix (l1 l2 : list A) (x : A) :
  slice (l1 ++ x :: l2) (len l1 + 1) None = l2.
Proof.
  pose proof (len_nonneg l1). pose proof (len_nonneg l2).
  assert (Hx : len (x :: l2) = len l2 + 1) by (unfold len; rewrite length_cons; lia).
  unfold slice. rewrite relIndex_nonneg by lia. rewrite len_app, Hx.
  replace (Z.min (len l1 + 1) (len l1 + (len l2 + 1))) with (len l1 + 1) by lia.
  replace (len l1 + (len l2 + 1) - (len l1 + 1)) with (len l2) by lia.
  replace (Z.to_nat (len l1 + 1)) with (List.length l1 + 1)%nat by (unfold len; lia).
  rewrite skipn_app.
  rewrite skipn_all2 by lia.
  replace (List.length l1 + 1 - List.length l1)%nat with 1%nat by lia.
  simpl. unfold len. rewrite Nat2Z.id. apply firstn_all.
Qed.

Lemma slice_all (l : list A) : slice l 0 None = l.
Proof.
  pose proof (len_nonneg l).
  unfold slice. rewrite relIndex_nonneg by lia.
  replace (Z.min 0 (len l)) with 0 by lia.
  rewrite Z.sub_0_r. simpl skipn. unfold len. rewrite Nat2Z.id. apply firstn_all.
Qed.

(** With the index [-1], [slice(0, -1)] is the array without its last
    element. *)
Lemma slice_minus_one (l : list A) : slice l 0 (Some (-1)) = removelast l.
Proof.
  pose proof (len_nonneg l).
  unfold slice. rewrite (relIndex_nonneg _ 0) by lia. rewrite (relIndex_neg _ (-1)) by lia.
  replace (Z.min 0 (len l)) with 0 by lia.
  rewrite Z.sub_0_r. simpl skipn.
  rewrite removelast_firstn_len. f_equal. unfold len. lia.
Qed.

End Slices.

(** When some entity of the list has the triple of the argument,
    [deleteEntity] removes the first such entity and leaves the others as
    they are, in order. *)
Lemma deleteEntity_first_match (this : EntityHighlighter) (entity e : Entity.t)
  (es1 es2 : list Entity.t) :
  entities (props this) = es1 ++ e :: es2 ->
  (forall x, In x es1 -> sameEntity entity x = false) ->
  sameEntity entity e = true ->
  onChange (deleteEntity this entity) = (text (props this), es1 ++ es2).
Proof.
  intros Hes Hnone He. unfold deleteEntity. simpl. rewrite Hes.
  unfold findIndex. rewrite (findIndexFrom_first _ _ _ _ _ Hnone He).
  rewrite Z.add_0_l, slice_prefix, slice_suffix. reflexivity.
Qed.

Lemma sameEntity_iff (entity e : Entity.t) :
  sameEntity entity e = true <-> e = entity.
Proof.
  unfold sameEntity. destruct entity as [s1 e1 l1], e as [s2 e2 l2]. simpl.
  rewrite !andb_true_iff, !Z.eqb_eq, str_eqb_eq.
  split; [intros [[-> ->] ->]; reflexivity | intro H; injection H; auto].
Qed.

(** When no entity of the list has the triple of the argument, [findIndex]
    is [-1] and [deleteEntity] passes the list without its last element
    followed by the whole list. *)
Lemma deleteEntity_no_match (this : EntityHighlighter) (entity : Entity.t) :
  (forall x, In x (entities (props this)) -> sameEntity entity x = false) ->
  onChange (deleteEntity this entity)
  = (text (props this), removelast (entities (props this)) ++ entities (props this)).
Proof.
  intro Hnone. unfold deleteEntity. simpl.
  unfold findIndex. rewrite (findIndexFrom_none _ _ _ Hnone).
  simpl (-1 + 1). rewrite slice_minus_one, slice_all. reflexivity.
Qed.

(** C2 (the code departs from the claim).  The claim is that [deleteEntity]
    removes the first entity with the triple of its argument and leaves the
    list as it is when there is none.  With the entities [{0, 1, a}] and
    [{1, 2, b}] and the argument [{3, 4, c}], no entity matches, [findIndex]
    is [-1], and [onChange] receives three entities: [slice(0, -1)] followed
    by [slice(0)]. *)
Theorem C2_deleteEntity_without_match :
  let a := Entity.mk 0 1 (js "a") in
  let b := Entity.mk 1 2 (js "b") in
  let c := Entity.mk 3 4 (js "c") in
  let this := component (js "hello") [a; b] 0 0 (HTMLTextAreaElement.mk (js "hello") 0 0) in
  findIndex (sameEntity c) [a; b] = -1
  /\ onChange (deleteEntity this c) = (js "hello", [a; a; b])
  /\ snd (onChange (deleteEntity this c)) <> entities (props this).
Proof.
  cbv zeta. split; [reflexivity|]. split; [reflexivity|].
  vm_compute. discriminate.
Qed.

(** C10.  [deleteEntity] and [addEntity] call [onChange] with the current
    text as its first argument, whatever the component and the entity. *)
Theorem C10_entity_commands_keep_text :
  forall (this : EntityHighlighter) (entity : Entity.t),
    fst (onChange (deleteEntity this entity)) = text (props this)
    /\ fst (onChange (addEntity this)) = text (props this)
    /\ snd (onChange (addEntity this))
       = entities (props this)
           ++ [Entity.mk (selectionStart this) (selectionEnd this)
                 (entityLabelInputText (state this))].
Proof.
  intros this entity. repeat split.
Qed.

(** ** Segmentation *)

(** On at least two bounds the recursion of [getRanges] ends, with the
    non-empty ones among the accumulated and the remaining pairs. *)
Lemma getRanges_pairs (bs : list Z) :
  forall acc, (2 <= List.length bs)%nat ->
              getRanges bs acc = Some (filter nonEmpty (acc ++ pairs bs)).
Proof.
  induction bs as [|a bs IH]; intros acc Hlen.
  - simpl in Hlen. lia.
  - destruct bs as [|b [|c bs]].
    + simpl in Hlen. lia.
    + reflexivity.
    + change (getRanges (a :: b :: c :: bs) acc)
        with (getRanges (b :: c :: bs) (acc ++ [Range.mk a b])).
      rewrite IH by (simpl; lia).
      rewrite <- app_assoc. reflexivity.
Qed.

Lemma ranges_pairs (text : jsstring) (es : list Entity.t) :
  ranges text es = Some (filter nonEmpty (pairs (0 :: bounds es ++ [len text]))).
Proof.
  unfold ranges. rewrite getRanges_pairs.
  - reflexivity.
  - simpl. rewrite length_app. simpl. lia.
Qed.

Lemma bounds_sorted (es : list Entity.t) : Sorted Z.le (bounds es).
Proof.
  unfold bounds, sortAscending.
  pose proof (ZSort.Sorted_sort
                (List.concat (map (fun e => [Entity.start e; Entity.end_ e]) es))) as H.
  induction H as [|a l Hs IH Hhd]; constructor.
  - exact IH.
  - destruct Hhd as [|b l Hab]; constructor.
    apply Z.leb_le. exact Hab.
Qed.

(** Every bound is the start or the end of an entity. *)
Lemma bounds_In (es : list Entity.t) (x : Z) :
  In x (bounds es) -> exists e, In e es /\ (x = Entity.start e \/ x = Entity.end_ e).
Proof.
  unfold bounds, sortAscending. intro H.
  apply (Permutation_in x (Permutation_sym (ZSort.Permuted_sort _))) in H.
  apply in_concat in H. destruct H as [l [Hl Hx]].
  apply in_map_iff in Hl. destruct Hl as [e [<- He]].
  exists e. split; [exact He|].
  simpl in Hx. intuition.
Qed.

Lemma firstn_skipn_add {A : Type} (n m : nat) (l : list A) :
  firstn n l ++ firstn m (skipn n l) = firstn (n + m) l.
Proof.
  revert l. induction n as [|n IH]; intros [|x l]; simpl.
  - reflexivity.
  - reflexivity.
  - rewrite firstn_nil. reflexivity.
  - rewrite IH. reflexivity.
Qed.

Lemma last_default {A : Type} (l : list A) :
  forall x a b : A, last (x :: l) a = last (x :: l) b.
Proof.
  induction l as [|y l IH]; intros x a b.
  - reflexivity.
  - change (last (y :: l) a = last (y :: l) b). apply IH.
Qed.

Lemma last_cons_default {A : Type} (l : list A) (a b : A) :
  last (b :: l) a = last l b.
Proof.
  destruct l as [|y l].
  - reflexivity.
  - change (last (y :: l) a = last (y :: l) b). apply last_default.
Qed.

Section Chunks.

Variable text : jsstring.

Lemma clamp_bounds (x : Z) : 0 <= clamp text x <= len text.
Proof. unfold clamp. pose proof (len_nonneg text). lia. Qed.

Lemma clamp_mono (x y : Z) : x <= y -> clamp text x <= clamp text y.
Proof. unfold clamp. lia. Qed.

Lemma substring_seg (a b : Z) :
  clamp text a <= clamp text b -> substring text a b = seg text (clamp text a) (clamp text b).
Proof.
  intro H. unfold substring, seg. fold (clamp text a). fold (clamp text b).
  cbv zeta. rewrite Z.min_l, Z.max_r by exact H. reflexivity.
Qed.

Lemma seg_app (i j k : Z) :
  0 <= i -> i <= j -> j <= k -> seg text i j ++ seg text j k = seg text i k.
Proof.
  intros Hi Hij Hjk. unfold seg.
  replace (Z.to_nat j) with (Z.to_nat (j - i) + Z.to_nat i)%nat by lia.
  rewrite <- skipn_skipn, firstn_skipn_add.
  f_equal. lia.
Qed.

Lemma seg_empty (i : Z) : seg text i i = [].
Proof. unfold seg. rewrite Z.sub_diag. reflexivity. Qed.

Lemma seg_all : seg text 0 (len text) = text.
Proof.
  unfold seg, len. rewrite Z.sub_0_r, Nat2Z.id. simpl skipn. apply firstn_all.
Qed.

Lemma chain_le_last (l : list Z) :
  forall a, chain text a l -> clamp text a <= clamp text (last l a).
Proof.
  induction l as [|b l IH]; intros a H.
  - simpl. lia.
  - destruct H as [Hab Hl]. rewrite last_cons_default.
    specialize (IH b Hl). lia.
Qed.

(** The chunks of a chain text of bounds are the pieces of one segment. *)
Lemma chunks_concat (l : list Z) :
  forall a, chain text a l ->
            List.concat (map (chunk text) (filter nonEmpty (pairs (a :: l))))
            = seg text (clamp text a) (clamp text (last l a)).
Proof.
  induction l as [|b l IH]; intros a H.
  - simpl. symmetry. apply seg_empty.
  - destruct H as [Hab Hl].
    change (pairs (a :: b :: l)) with (Range.mk a b :: pairs (b :: l)).
    rewrite last_cons_default.
    pose proof (chain_le_last l b Hl) as Hlast.
    pose proof (clamp_bounds a) as Ha.
    cbn [filter]. unfold nonEmpty at 1. cbn [Range.start Range.end_].
    destruct (Z.gtb_spec b a) as [Hgt | Hle].
    + cbn [map List.concat]. rewrite (IH b Hl).
      unfold chunk. cbn [Range.start Range.end_].
      rewrite (substring_seg a b Hab).
      apply seg_app; lia.
    + rewrite (IH b Hl).
      pose proof (clamp_mono b a Hle).
      replace (clamp text b) with (clamp text a) by lia. reflexivity.
Qed.

Lemma chain_sorted_last (l : list Z) :
  forall a, Sorted Z.le (a :: l) -> chain text a (l ++ [len text]).
Proof.
  induction l as [|b l IH]; intros a H.
  - simpl. split; [|exact I].
    pose proof (clamp_bounds a). pose proof (len_nonneg text). unfold clamp in *. lia.
  - apply Sorted_inv in H. destruct H as [Hs Hhd].
    apply HdRel_inv in Hhd.
    simpl. split.
    + apply clamp_mono. exact Hhd.
    + apply IH. exact Hs.
Qed.

Lemma chain_bounds (es : list Entity.t) : chain text 0 (bounds es ++ [len text]).
Proof.
  pose proof (bounds_sorted es) as H.
  pose proof (len_nonneg text) as HL.
  destruct (bounds es) as [|b l].
  - simpl. split; [|exact I]. unfold clamp. lia.
  - simpl. split.
    + unfold clamp. lia.
    + apply chain_sorted_last. exact H.
Qed.

(** The chunks that [getTextNodes] cuts, put together, are the text. *)
Lemma chunks_concat_text (es : list Entity.t) :
  List.concat (map (chunk text) (filter nonEmpty (pairs (0 :: bounds es ++ [len text]))))
  = text.
Proof.
  rewrite chunks_concat by apply chain_bounds.
  rewrite last_last.
  pose proof (len_nonneg text) as HL.
  replace (clamp text 0) with 0 by (unfold clamp; lia).
  replace (clamp text (len text)) with (len text) by (unfold clamp; lia).
  apply seg_all.
Qed.

End Chunks.

(** ** Colours *)

Lemma mapM_Forall2 {A B : Type} (f : A -> option B) (l : list A) :
  forall l', mapM f l = Some l' -> Forall2 (fun x y => f x = Some y) l l'.
Proof.
  induction l as [|x l IH]; intros l' H; simpl in H.
  - injection H as <-. constructor.
  - destruct (f x) as [y|] eqn:Hy; [|discriminate]. simpl in H.
    destruct (mapM f l) as [ys|]; [|discriminate]. simpl in H.
    injection H as <-. constructor; [exact Hy | apply IH; reflexivity].
Qed.

Lemma mapM_total {A B : Type} (f : A -> option B) (l : list A) :
  (forall x, exists y, f x = Some y) -> exists l', mapM f l = Some l'.
Proof.
  intro Hf. induction l as [|x l [ys IH]]; simpl.
  - exists []. reflexivity.
  - destruct (Hf x) as [y Hy]. rewrite Hy, IH. simpl. exists (y :: ys). reflexivity.
Qed.

Lemma toInt32_mod (z : Z) : toInt32 z mod 2 ^ 32 = z mod 2 ^ 32.
Proof.
  unfold toInt32. cbv zeta.
  destruct (Z.ltb_spec (z mod 2 ^ 32) (2 ^ 31)).
  - apply Z.mod_mod. lia.
  - rewrite <- (Z.mod_mod z (2 ^ 32)) at 2 by lia.
    replace (z mod 2 ^ 32 - 2 ^ 32) with (z mod 2 ^ 32 + (-1) * 2 ^ 32) by lia.
    apply Z.mod_add. lia.
Qed.

Lemma toInt32_congr (a b : Z) : a mod 2 ^ 32 = b mod 2 ^ 32 -> toInt32 a = toInt32 b.
Proof. intro H. unfold toInt32. rewrite H. reflexivity. Qed.

Lemma toInt32_idem (z : Z) : toInt32 (toInt32 z) = toInt32 z.
Proof. apply toInt32_congr. apply toInt32_mod. Qed.

Lemma hashStep_31 (hash : Z) (c : N) :
  hashStep hash c = toInt32 (hash * 31 + Z.of_N c).
Proof.
  unfold hashStep, and32, shl. cbv zeta.
  rewrite Z.land_diag.
  change (5 mod 32) with 5. rewrite Z.shiftl_mul_pow2 by lia.
  apply toInt32_congr.
  rewrite Zplus_mod, Zminus_mod, toInt32_mod.
  rewrite Zmult_mod, toInt32_mod, <- Zmult_mod.
  rewrite <- Zminus_mod, <- Zplus_mod.
  f_equal. lia.
Qed.

Lemma hashString_hash31 (str : jsstring) : hashString str = Z.abs (hash31 str).
Proof.
  unfold hashString, hash31. cbv zeta.
  assert (Hfold : forall l h,
             fold_left hashStep l h
             = fold_left (fun hash c => toInt32 (hash * 31 + Z.of_N c)) l h).
  { induction l as [|c l IH]; intro h; simpl.
    - reflexivity.
    - rewrite hashStep_31. apply IH. }
  rewrite Hfold.
  destruct str as [|c str].
  - reflexivity.
  - replace (len (c :: str) =? 0) with false
      by (symmetry; apply Z.eqb_neq; unfold len; rewrite length_cons; lia).
    destruct (Z.gtb_spec (fold_left (fun hash c0 => toInt32 (hash * 31 + Z.of_N c0))
                            (c :: str) 0) 0); lia.
Qed.

Lemma hashString_nonneg (str : jsstring) : 0 <= hashString str.
Proof. rewrite hashString_hash31. apply Z.abs_nonneg. Qed.

Lemma colors_length : len colors = 13.
Proof. reflexivity. Qed.

(** The palette index of a label is within the palette. *)
Lemma color_index_bounds (str : jsstring) :
  Z.rem (hashString str) (len colors) = hashString str mod 13
  /\ 0 <= hashString str mod 13 < len colors.
Proof.
  pose proof (hashString_nonneg str) as H.
  rewrite colors_length. split.
  - apply Z.rem_mod_nonneg; lia.
  - apply Z.mod_pos_bound. lia.
Qed.

Lemma getTextNodeColor_one (e : Entity.t) :
  exists c, nth_error colors (Z.to_nat (hashString (Entity.label e) mod 13)) = Some c
            /\ getTextNodeColor [e] = Some (Color.bg c).
Proof.
  destruct (color_index_bounds (Entity.label e)) as [Hrem Hb].
  rewrite colors_length in Hb.
  destruct (nth_error colors (Z.to_nat (hashString (Entity.label e) mod 13)))
    as [c|] eqn:Hc.
  - exists c. split; [reflexivity|].
    unfold getTextNodeColor. change (len [e] =? 0) with false.
    change (len [e] =? 1) with true. cbv iota.
    change (element [e] 0) with (Some e). unfold bind at 1.
    rewrite Hrem. unfold element.
    destruct (Z.ltb_spec (hashString (Entity.label e) mod 13) 0); [lia|].
    rewrite Hc. reflexivity.
  - apply nth_error_None in Hc. change (List.length colors) with 13%nat in Hc. lia.
Qed.

Lemma getTextNodeColor_many (e1 e2 : Entity.t) (l : list Entity.t) :
  getTextNodeColor (e1 :: e2 :: l) = Some mixColorsMock.
Proof.
  unfold getTextNodeColor.
  assert (H : len (e1 :: e2 :: l) = len l + 2)
    by (unfold len; rewrite !length_cons; lia).
  pose proof (len_nonneg l).
  destruct (Z.eqb_spec (len (e1 :: e2 :: l)) 0); [lia|].
  destruct (Z.eqb_spec (len (e1 :: e2 :: l)) 1); [lia|].
  reflexivity.
Qed.

Lemma getTextNodeColor_total (l : list Entity.t) :
  exists c, getTextNodeColor l = Some c.
Proof.
  destruct l as [|e1 [|e2 l]].
  - exists EmptyString. reflexivity.
  - destruct (getTextNodeColor_one e1) as [c [_ H]]. exists (Color.bg c). exact H.
  - exists mixColorsMock. apply getTextNodeColor_many.
Qed.

Lemma textNode_total (text : jsstring) (es : list Entity.t) (range : Range.t) :
  exists node, textNode text es range = Some node.
Proof.
  unfold textNode. cbv zeta.
  destruct (getTextNodeColor_total (rangeBelongsToEntities es range)) as [c Hc].
  rewrite Hc. simpl. eexists. reflexivity.
Qed.

Lemma textNode_inv (text : jsstring) (es : list Entity.t) (range : Range.t)
  (node : TextNode.t) :
  textNode text es range = Some node ->
  TextNode.text node = chunk text range
  /\ getTextNodeColor (rangeBelongsToEntities es range) = Some (TextNode.color node).
Proof.
  unfold textNode. cbv zeta.
  destruct (getTextNodeColor (rangeBelongsToEntities es range)) as [c|]; simpl.
  - intro H. injection H as <-. split; reflexivity.
  - discriminate.
Qed.

(** [getTextNodes] returns: one node per range, with the text of the range
    and the colour of the entities the range belongs to. *)
Lemma getTextNodes_total (text : jsstring) (es : list Entity.t) :
  exists nodes,
    getTextNodes text es = Some nodes
    /\ Forall2 (fun range node => textNode text es range = Some node)
               (filter nonEmpty (pairs (0 :: bounds es ++ [len text]))) nodes.
Proof.
  unfold getTextNodes. rewrite ranges_pairs. simpl bind.
  destruct (mapM_total (textNode text es)
              (filter nonEmpty (pairs (0 :: bounds es ++ [len text])))
              (textNode_total text es)) as [nodes H].
  exists nodes. split; [exact H|]. apply mapM_Forall2. exact H.
Qed.

(** C5.  For every text and every list of entities (the empty one too),
    [getTextNodes] returns, and the texts of the nodes it returns,
    concatenated in order, are the text. *)
Theorem C5_segmentation_concatenates_to_text :
  forall (text : jsstring) (es : list Entity.t),
  exists nodes,
    getTextNodes text es = Some nodes
    /\ List.concat (map TextNode.text nodes) = text.
Proof.
  intros text es.
  destruct (getTextNodes_total text es) as [nodes [Hn HF]].
  exists nodes. split; [exact Hn|].
  transitivity
    (List.concat (map (chunk text)
                      (filter nonEmpty (pairs (0 :: bounds es ++ [len text])))));
    [|apply chunks_concat_text].
  f_equal. clear Hn.
  induction HF as [|range node rs ns Hx _ IH]; simpl.
  - reflexivity.
  - apply textNode_inv in Hx. destruct Hx as [-> _]. rewrite IH. reflexivity.
Qed.

(** ** Order and disjointness of the ranges *)

Lemma Sorted_app_last (l : list Z) (x : Z) :
  Sorted Z.le l -> (forall y, In y l -> y <= x) -> Sorted Z.le (l ++ [x]).
Proof.
  intros Hs Hx. induction Hs as [|a l Hs IH Hhd]; simpl.
  - repeat constructor.
  - constructor.
    + apply IH. intros y Hy. apply Hx. right. exact Hy.
    + destruct Hhd as [|b l Hab]; simpl; constructor.
      * apply Hx. left. reflexivity.
      * exact Hab.
Qed.

(** With entities inside the text, the whole list of bounds is sorted. *)
Lemma all_bounds_sorted (text : jsstring) (es : list Entity.t) :
  Forall (validEntity (len text)) es ->
  StronglySorted Z.le (0 :: bounds es ++ [len text]).
Proof.
  intro Hv. rewrite Forall_forall in Hv.
  assert (Hin : forall y, In y (bounds es) -> 0 <= y /\ y <= len text).
  { intros y Hy. apply bounds_In in Hy. destruct Hy as [e [He Hy]].
    destruct (Hv e He) as [H0 [H1 H2]]. lia. }
  apply Sorted_StronglySorted.
  - intros x y z Hxy Hyz. lia.
  - constructor.
    + apply Sorted_app_last; [apply bounds_sorted|].
      intros y Hy. apply Hin. exact Hy.
    + destruct (bounds es) as [|b l]; simpl; constructor.
      * apply len_nonneg.
      * apply Hin. left. reflexivity.
Qed.

Lemma pairs_In (l : list Z) (r : Range.t) :
  In r (pairs l) -> In (Range.start r) l /\ In (Range.end_ r) l.
Proof.
  induction l as [|a l IH]; [intros []|].
  destruct l as [|b l]; [intros []|].
  change (pairs (a :: b :: l)) with (Range.mk a b :: pairs (b :: l)).
  intros [<- | H].
  - simpl. auto.
  - destruct (IH H) as [H1 H2]. split; right; assumption.
Qed.

Lemma pairs_sorted (l : list Z) :
  StronglySorted Z.le l -> StronglySorted precedes (pairs l).
Proof.
  induction l as [|a l IH]; intro Hs; [constructor|].
  destruct l as [|b l]; [constructor|].
  change (pairs (a :: b :: l)) with (Range.mk a b :: pairs (b :: l)).
  apply StronglySorted_inv in Hs. destruct Hs as [Hs Ha].
  constructor.
  - apply IH. exact Hs.
  - apply Forall_forall. intros r Hr.
    apply pairs_In in Hr. unfold precedes. simpl.
    destruct Hr as [[Hr | Hr] _].
    + lia.
    + apply StronglySorted_inv in Hs. destruct Hs as [_ Hb].
      rewrite Forall_forall in Hb. apply Hb. exact Hr.
Qed.

Lemma filter_sorted {A : Type} (R : A -> A -> Prop) (f : A -> bool) (l : list A) :
  StronglySorted R l -> StronglySorted R (filter f l).
Proof.
  induction 1 as [|a l Hs IH Ha]; simpl.
  - constructor.
  - destruct (f a).
    + constructor; [exact IH|].
      rewrite Forall_forall in *. intros x Hx. apply filter_In in Hx.
      apply Ha. tauto.
    + exact IH.
Qed.

Lemma precedes_disjoint (l : list Range.t) :
  StronglySorted precedes l -> ForallOrdPairs disjoint l.
Proof.
  induction 1 as [|a l Hs IH Ha]; constructor.
  - rewrite Forall_forall in *. intros r Hr x.
    specialize (Ha r Hr). unfold precedes in Ha. lia.
  - exact IH.
Qed.

(** C6.  For every text and every list of entities that satisfy
    [0 <= start < end <= text.length], the ranges of the chunks exist, each
    has [end > start], each ends at or before the start of every later one
    (ascending order of emission), and they are pairwise disjoint. *)
Theorem C6_ranges_disjoint_and_ascending :
  forall (text : jsstring) (es : list Entity.t),
    Forall (validEntity (len text)) es ->
    exists rs,
      ranges text es = Some rs
      /\ Forall (fun r => Range.end_ r > Range.start r) rs
      /\ StronglySorted precedes rs
      /\ ForallOrdPairs disjoint rs.
Proof.
  intros text es Hv.
  exists (filter nonEmpty (pairs (0 :: bounds es ++ [len text]))).
  assert (Hs : StronglySorted precedes
                 (filter nonEmpty (pairs (0 :: bounds es ++ [len text])))).
  { apply filter_sorted, pairs_sorted, all_bounds_sorted. exact Hv. }
  split; [apply ranges_pairs|]. split; [|split].
  - apply Forall_forall. intros r Hr. apply filter_In in Hr.
    destruct Hr as [_ Hr]. unfold nonEmpty in Hr.
    rewrite Z.gtb_ltb, Z.ltb_lt in Hr. lia.
  - exact Hs.
  - apply precedes_disjoint. exact Hs.
Qed.

Lemma C6_ranges_disjoint_and_ascending_witness :
  exists rs,
    ranges (js "hello world") [Entity.mk 0 5 (js "A"); Entity.mk 2 7 (js "B")] = Some rs
    /\ Forall (fun r => Range.end_ r > Range.start r) rs
    /\ StronglySorted precedes rs
    /\ ForallOrdPairs disjoint rs.
Proof.
  apply (C6_ranges_disjoint_and_ascending (js "hello world")
           [Entity.mk 0 5 (js "A"); Entity.mk 2 7 (js "B")]).
  repeat constructor; vm_compute; congruence.
Defined.

(** C9.  The colour of every node that [getTextNodes] returns is
    [getTextNodeColor] of the entities its range belongs to, and
    [getTextNodeColor] never fails.  For no entity it is the empty string;
    for exactly one it is the palette entry at the index [hashString(label)]
    modulo the palette size, 13, which is within the palette, [hashString]
    being the absolute value of the 32-bit signed accumulation
    [hash * 31 + charCode]; for two or more it is the colour of
    [mixColorsMock], which is no palette entry.  The range [[2, 5)] of the
    entities [{0, 5, A}] and [{2, 7, B}] belongs to both and gets that
    colour. *)
Theorem C9_color_of_covering_entities :
  (forall (text : jsstring) (es : list Entity.t),
      exists rs nodes,
        ranges text es = Some rs
        /\ getTextNodes text es = Some nodes
        /\ Forall2 (fun range node =>
                      getTextNodeColor (rangeBelongsToEntities es range)
                      = Some (TextNode.color node)) rs nodes)
  /\ getTextNodeColor [] = Some EmptyString
  /\ (forall e : Entity.t,
         exists c,
           nth_error colors (Z.to_nat (hashString (Entity.label e) mod 13)) = Some c
           /\ getTextNodeColor [e] = Some (Color.bg c))
  /\ len colors = 13
  /\ (forall str : jsstring,
         hashString str = Z.abs (hash31 str)
         /\ 0 <= hashString str mod 13 < len colors)
  /\ (forall (e1 e2 : Entity.t) (l : list Entity.t),
         getTextNodeColor (e1 :: e2 :: l) = Some mixColorsMock)
  /\ ~ In mixColorsMock (map Color.bg colors)
  /\ (let es := [Entity.mk 0 5 (js "A"); Entity.mk 2 7 (js "B")] in
      rangeBelongsToEntities es (Range.mk 2 5) = es
      /\ getTextNodeColor (rangeBelongsToEntities es (Range.mk 2 5)) = Some mixColorsMock).
Proof.
  split; [|split; [|split; [|split; [|split; [|split; [|split]]]]]].
  - intros text es.
    destruct (getTextNodes_total text es) as [nodes [Hn HF]].
    exists (filter nonEmpty (pairs (0 :: bounds es ++ [len text]))), nodes.
    split; [apply ranges_pairs|]. split; [exact Hn|].
    clear Hn. induction HF as [|range node rs ns Hx _ IH]; constructor.
    + apply textNode_inv in Hx. tauto.
    + exact IH.
  - reflexivity.
  - apply getTextNodeColor_one.
  - reflexivity.
  - intro str. split; [apply hashString_hash31 | apply color_index_bounds].
  - apply getTextNodeColor_many.
  - vm_compute. intuition discriminate.
  - cbv zeta. split; reflexivity.
Qed.

(** * Further properties of the component *)

(** ** Deleting and adding entities *)

(** A list that contains an entity splits at its first occurrence. *)
Lemma first_occurrence (entity : Entity.t) (es : list Entity.t) :
  In entity es ->
  exists es1 es2, es = es1 ++ entity :: es2 /\ ~ In entity es1.
Proof.
  induction es as [|x es IH]; intro Hin; [destruct Hin|].
  destruct (sameEntity entity x) eqn:Hx.
  - apply sameEntity_iff in Hx. subst x.
    exists [], es. split; [reflexivity | intros []].
  - assert (Hne : x <> entity).
    { intro Heq. apply sameEntity_iff in Heq. congruence. }
    destruct Hin as [Heq | Hin]; [contradiction|].
    destruct (IH Hin) as [es1 [es2 [-> Hnot]]].
    exists (x :: es1), es2. split; [reflexivity|].
    intros [Heq | H]; [contradiction | exact (Hnot H)].
Qed.

Lemma not_In_sameEntity (entity : Entity.t) (es : list Entity.t) :
  ~ In entity es -> forall x, In x es -> sameEntity entity x = false.
Proof.
  intros Hnot x Hx. destruct (sameEntity entity x) eqn:H; [|reflexivity].
  apply sameEntity_iff in H. subst x. contradiction.
Qed.

(** Deleting an entity that is in the list removes its first occurrence and
    nothing else: the entities before and after it are passed to [onChange]
    as they are, in order, with the text. *)
Theorem deleteEntity_removes_first_occurrence
  (this : EntityHighlighter) (entity : Entity.t) :
  In entity (entities (props this)) ->
  exists es1 es2,
    entities (props this) = es1 ++ entity :: es2
    /\ ~ In entity es1
    /\ onChange (deleteEntity this entity) = (text (props this), es1 ++ es2).
Proof.
  intro Hin. destruct (first_occurrence entity _ Hin) as [es1 [es2 [Hes Hnot]]].
  exists es1, es2. split; [exact Hes|]. split; [exact Hnot|].
  apply (deleteEntity_first_match this entity entity es1 es2 Hes).
  - apply not_In_sameEntity. exact Hnot.
  - apply sameEntity_iff. reflexivity.
Qed.

Lemma deleteEntity_removes_first_occurrence_witness :
  exists es1 es2,
    [Entity.mk 0 1 (js "a"); Entity.mk 1 2 (js "b"); Entity.mk 0 1 (js "a")]
    = es1 ++ Entity.mk 1 2 (js "b") :: es2
    /\ ~ In (Entity.mk 1 2 (js "b")) es1
    /\ onChange (deleteEntity
                   (component (js "hello")
                      [Entity.mk 0 1 (js "a"); Entity.mk 1 2 (js "b"); Entity.mk 0 1 (js "a")]
                      0 0 ello)
                   (Entity.mk 1 2 (js "b")))
       = (js "hello", es1 ++ es2).
Proof.
  apply (deleteEntity_removes_first_occurrence
           (component (js "hello")
              [Entity.mk 0 1 (js "a"); Entity.mk 1 2 (js "b"); Entity.mk 0 1 (js "a")]
              0 0 ello)
           (Entity.mk 1 2 (js "b"))).
  right. left. reflexivity.
Defined.

(** Deleting an entity that is not in the list does not leave the list as it
    is: [onChange] receives the list without its last entity followed by the
    whole list, [2 n - 1] entities for a list of [n >= 1]. *)
Theorem deleteEntity_absent_entity (this : EntityHighlighter) (entity : Entity.t) :
  ~ In entity (entities (props this)) ->
  onChange (deleteEntity this entity)
  = (text (props this), removelast (entities (props this)) ++ entities (props this))
  /\ (entities (props this) <> [] ->
      len (snd (onChange (deleteEntity this entity)))
      = 2 * len (entities (props this)) - 1).
Proof.
  intro Hnot.
  pose proof (deleteEntity_no_match this entity (not_In_sameEntity _ _ Hnot)) as H.
  split; [exact H|].
  intro Hne. rewrite H. simpl snd. rewrite len_app.
  destruct (exists_last Hne) as [l [x Hl]]. rewrite Hl, removelast_last, len_app.
  change (len [x]) with 1. lia.
Qed.

Lemma deleteEntity_absent_entity_witness :
  onChange (deleteEntity
              (component (js "hello") [Entity.mk 0 1 (js "a"); Entity.mk 1 2 (js "b")]
                 0 0 ello)
              (Entity.mk 3 4 (js "c")))
  = (js "hello",
     removelast [Entity.mk 0 1 (js "a"); Entity.mk 1 2 (js "b")]
       ++ [Entity.mk 0 1 (js "a"); Entity.mk 1 2 (js "b")])
  /\ ([Entity.mk 0 1 (js "a"); Entity.mk 1 2 (js "b")] <> [] ->
      len (snd (onChange (deleteEntity
                            (component (js "hello")
                               [Entity.mk 0 1 (js "a"); Entity.mk 1 2 (js "b")] 0 0 ello)
                            (Entity.mk 3 4 (js "c")))))
      = 2 * len [Entity.mk 0 1 (js "a"); Entity.mk 1 2 (js "b")] - 1).
Proof.
  apply (deleteEntity_absent_entity
           (component (js "hello") [Entity.mk 0 1 (js "a"); Entity.mk 1 2 (js "b")]
              0 0 ello)
           (Entity.mk 3 4 (js "c"))).
  simpl. intros [H | [H | []]]; discriminate H.
Defined.



(** When the controls are enabled (the selection is not empty) and the
    selection is a range of the text, [addEntity] keeps the span invariant:
    the new entity, appended last, satisfies [0 <= start < end <= length]
    like the others. *)
Theorem addEntity_keeps_invariant (this : EntityHighlighter) :
  entityAddControlsDisabled this = false ->
  0 <= selectionStart this ->
  selectionStart this <= selectionEnd this ->
  selectionEnd this <= len (text (props this)) ->
  Forall (validEntity (len (text (props this)))) (entities (props this)) ->
  Forall (validEntity (len (fst (onChange (addEntity this)))))
         (snd (onChange (addEntity this))).
Proof.
  intros Hen H0 H1 H2 Hv. simpl.
  apply Forall_app. split; [exact Hv|].
  constructor; [|constructor].
  unfold entityAddControlsDisabled in Hen. apply Z.eqb_neq in Hen.
  unfold validEntity. simpl. lia.
Qed.

Lemma addEntity_keeps_invariant_witness :
  Forall (validEntity 5)
         (snd (onChange (addEntity (selecting (js "hello") [Entity.mk 0 1 (js "a")]
                                              1 3 (js "b"))))).
Proof.
  apply (addEntity_keeps_invariant
           (selecting (js "hello") [Entity.mk 0 1 (js "a")] 1 3 (js "b"))).
  - reflexivity.
  - simpl. lia.
  - simpl. lia.
  - vm_compute. congruence.
  - repeat constructor; vm_compute; congruence.
Defined.

(** ** Reconciliation: the classes of [textChange] *)

Lemma filter_all {A : Type} (f : A -> bool) (l : list A) :
  (forall x, In x l -> f x = true) -> filter f l = l.
Proof.
  induction l as [|x l IH]; intro H; simpl; [reflexivity|].
  rewrite (H x (or_introl eq_refl)). f_equal. apply IH.
  intros y Hy. apply H. right. exact Hy.
Qed.

Lemma filter_none {A : Type} (f : A -> bool) (l : list A) :
  (forall x, In x l -> f x = false) -> filter f l = [].
Proof.
  induction l as [|x l IH]; intro H; simpl; [reflexivity|].
  rewrite (H x (or_introl eq_refl)). apply IH.
  intros y Hy. apply H. right. exact Hy.
Qed.

(** Every non-empty entity that [textChange] leaves out (it is neither before
    the range, nor around it, nor beyond it) is among the broken entities
    that the console message counts, when the range is well formed. *)
Theorem dropped_entity_is_counted
  (es : list Entity.t) (e : Entity.t) (r : Range.t) :
  In e es ->
  Entity.start e < Entity.end_ e ->
  Range.start r <= Range.end_ r ->
  entityIsBeforeRange e r = false ->
  rangeIsInsideEntity e r = false ->
  entityIsBeyondRange e r = false ->
  In e (brokenEntities es r).
Proof.
  intros Hin Hlt Hr Hb Hi Hy. unfold brokenEntities.
  apply filter_In. split; [exact Hin|].
  classify. lia.
Qed.

Lemma dropped_entity_is_counted_witness :
  In (Entity.mk 2 5 (js "b"))
     (brokenEntities [Entity.mk 0 1 (js "a"); Entity.mk 2 5 (js "b")] (Range.mk 1 4)).
Proof.
  apply dropped_entity_is_counted; try reflexivity.
  - right. left. reflexivity.
  - simpl. lia.
Defined.

Lemma newEntities_length (es : list Entity.t) (r : Range.t) (d : Z) :
  List.length (newEntities es r d)
  = (List.length (filter (fun entity => Entity.end_ entity >? Entity.start entity)
                         (unchangedEntities es r))
     + List.length (filter (fun entity => Entity.end_ entity >? Entity.start entity)
                           (modifiedEntities es r d))
     + List.length (filter (fun entity => Entity.end_ entity >? Entity.start entity)
                           (shiftedEntities es r d)))%nat.
Proof.
  unfold newEntities. rewrite !filter_app, !length_app. lia.
Qed.

Lemma kept_length_cons {A : Type} (p q : A -> bool) (g : A -> A) (e : A) (es : list A) :
  List.length (filter p (map g (filter q (e :: es))))
  = ((if q e then if p (g e) then 1 else 0 else 0)
     + List.length (filter p (map g (filter q es))))%nat.
Proof.
  simpl. destruct (q e); simpl; [destruct (p (g e))|]; reflexivity.
Qed.

(** The three kept classes exclude one another, except for an entity that
    ends where an empty range sits: an entity gives at most one entity. *)
Lemma newEntities_length_cons (e : Entity.t) (es : list Entity.t) (r : Range.t) (d : Z) :
  Range.start r <= Range.end_ r ->
  (Range.start r = Range.end_ r -> Entity.end_ e <> Range.start r) ->
  (List.length (newEntities (e :: es) r d) <= 1 + List.length (newEntities es r d))%nat.
Proof.
  intros Hr He. rewrite !newEntities_length.
  unfold unchangedEntities, modifiedEntities, shiftedEntities.
  rewrite <- (map_id (filter (fun entity => entityIsBeforeRange entity r) (e :: es))).
  rewrite <- (map_id (filter (fun entity => entityIsBeforeRange entity r) es)).
  rewrite !kept_length_cons.
  destruct (entityIsBeforeRange e r) eqn:Hb, (rangeIsInsideEntity e r) eqn:Hi,
    (entityIsBeyondRange e r) eqn:Hy;
    try (exfalso; classify; lia);
    repeat match goal with
      | |- context [if ?c then _ else _] => destruct c
      end; lia.
Qed.

(** An edit does not multiply the entities: when the range is well formed
    and no entity ends where an empty range sits, [onChange] receives at most
    as many entities as there were. *)
Theorem textChange_does_not_multiply
  (this : EntityHighlighter) (ev : HTMLTextAreaElement.t) :
  let r := originalRange this ev in
  Range.start r <= Range.end_ r ->
  Forall (fun e => Range.start r = Range.end_ r -> Entity.end_ e <> Range.start r)
         (entities (props this)) ->
  len (snd (onChange (textChange this ev))) <= len (entities (props this)).
Proof.
  intros r Hr He. rewrite textChange_onChange. simpl snd. fold r.
  unfold len. apply inj_le.
  induction He as [|e es He _ IH].
  - reflexivity.
  - pose proof (newEntities_length_cons e es r (textSizeDiff this ev) Hr He).
    simpl List.length. lia.
Qed.

Lemma textChange_does_not_multiply_witness :
  len (snd (onChange (textChange
                        (component (js "abcdefg")
                           [Entity.mk 0 1 (js "a"); Entity.mk 0 7 (js "b");
                            Entity.mk 5 7 (js "c")] 1 4 azefg) azefg)))
  <= len [Entity.mk 0 1 (js "a"); Entity.mk 0 7 (js "b"); Entity.mk 5 7 (js "c")].
Proof.
  apply (textChange_does_not_multiply
           (component (js "abcdefg")
              [Entity.mk 0 1 (js "a"); Entity.mk 0 7 (js "b"); Entity.mk 5 7 (js "c")]
              1 4 azefg) azefg).
  - simpl. lia.
  - repeat constructor; simpl; intro H; discriminate H.
Defined.

(** An edit strictly after all the entities leaves the list as it is, in its
    order. *)
Theorem textChange_after_all_entities
  (this : EntityHighlighter) (ev : HTMLTextAreaElement.t) :
  let r := originalRange this ev in
  Range.start r <= Range.end_ r ->
  Forall (fun e => Entity.start e < Entity.end_ e /\ Entity.end_ e < Range.start r)
         (entities (props this)) ->
  snd (onChange (textChange this ev)) = entities (props this).
Proof.
  intros r Hr He. rewrite textChange_onChange. simpl snd. fold r.
  rewrite Forall_forall in He.
  unfold newEntities, unchangedEntities, modifiedEntities, shiftedEntities.
  rewrite (filter_all (fun entity => entityIsBeforeRange entity r)).
  - rewrite (filter_none (fun entity => rangeIsInsideEntity entity r)).
    + rewrite (filter_none (fun entity => entityIsBeyondRange entity r)).
      * simpl. rewrite app_nil_r. apply filter_all.
        intros x Hx. destruct (He x Hx). rewrite Z.gtb_ltb. apply Z.ltb_lt. lia.
      * intros x Hx. destruct (He x Hx). classify. lia.
    + intros x Hx. destruct (He x Hx). classify. lia.
  - intros x Hx. destruct (He x Hx). classify. lia.
Qed.

Lemma textChange_after_all_entities_witness :
  snd (onChange (textChange
                   (component (js "abcd") [Entity.mk 0 1 (js "x"); Entity.mk 0 2 (js "y")]
                      4 4 (HTMLTextAreaElement.mk (js "abcd!") 5 5))
                   (HTMLTextAreaElement.mk (js "abcd!") 5 5)))
  = [Entity.mk 0 1 (js "x"); Entity.mk 0 2 (js "y")].
Proof.
  apply (textChange_after_all_entities
           (component (js "abcd") [Entity.mk 0 1 (js "x"); Entity.mk 0 2 (js "y")]
              4 4 (HTMLTextAreaElement.mk (js "abcd!") 5 5))
           (HTMLTextAreaElement.mk (js "abcd!") 5 5)).
  - simpl. lia.
  - repeat constructor; simpl; lia.
Defined.

(** An edit before all the entities (each starts at or after the end of the
    range and strictly after its start) moves every entity by the size
    difference and keeps their order. *)
Theorem textChange_before_all_entities
  (this : EntityHighlighter) (ev : HTMLTextAreaElement.t) :
  let r := originalRange this ev in
  let d := textSizeDiff this ev in
  Forall (fun e => Entity.start e < Entity.end_ e
                   /\ Range.end_ r <= Entity.start e /\ Range.start r < Entity.start e)
         (entities (props this)) ->
  snd (onChange (textChange this ev))
  = map (fun e => Entity.mk (Entity.start e + d) (Entity.end_ e + d) (Entity.label e))
        (entities (props this)).
Proof.
  intros r d He. rewrite textChange_onChange. simpl snd. fold r. fold d.
  rewrite Forall_forall in He.
  unfold newEntities, unchangedEntities, modifiedEntities, shiftedEntities.
  rewrite (filter_none (fun entity => entityIsBeforeRange entity r)).
  - rewrite (filter_none (fun entity => rangeIsInsideEntity entity r)).
    + rewrite (filter_all (fun entity => entityIsBeyondRange entity r)).
      * simpl. apply filter_all.
        intros x Hx. apply in_map_iff in Hx. destruct Hx as [e [<- Hin]].
        destruct (He e Hin). simpl. rewrite Z.gtb_ltb. apply Z.ltb_lt. lia.
      * intros x Hx. destruct (He x Hx). classify. lia.
    + intros x Hx. destruct (He x Hx). classify. lia.
  - intros x Hx. destruct (He x Hx). classify. lia.
Qed.

Lemma textChange_before_all_entities_witness :
  snd (onChange (textChange
                   (component (js "ab") [Entity.mk 1 2 (js "x")] 0 0
                      (HTMLTextAreaElement.mk (js "!ab") 1 1))
                   (HTMLTextAreaElement.mk (js "!ab") 1 1)))
  = [Entity.mk 2 3 (js "x")].
Proof.
  apply (textChange_before_all_entities
           (component (js "ab") [Entity.mk 1 2 (js "x")] 0 0
              (HTMLTextAreaElement.mk (js "!ab") 1 1))
           (HTMLTextAreaElement.mk (js "!ab") 1 1)).
  repeat constructor; simpl; lia.
Defined.

(** ** The range of an edit *)

(** The range that [textChange] derives is either the previous selection, or,
    for a deletion without a previous selection whose caret did not move
    forward, the range that starts at the new caret and has as many
    characters as were deleted.  With a well-formed previous selection it is
    well formed. *)
Theorem originalRange_cases (this : EntityHighlighter) (ev : HTMLTextAreaElement.t) :
  let r := originalRange this ev in
  let d := textSizeDiff this ev in
  (r = Range.mk (selectionStart this) (selectionEnd this)
   \/ (selectionStart this = selectionEnd this /\ d < 0
       /\ HTMLTextAreaElement.selectionEnd (inputNode this) <= selectionEnd this
       /\ r = Range.mk (HTMLTextAreaElement.selectionStart (inputNode this))
                       (HTMLTextAreaElement.selectionStart (inputNode this) - d)))
  /\ (selectionStart this <= selectionEnd this -> Range.start r <= Range.end_ r)
  /\ (selectionStart this = selectionEnd this -> d < 0 ->
      HTMLTextAreaElement.selectionEnd (inputNode this) <= selectionEnd this ->
      Range.end_ r - Range.start r = - d).
Proof.
  intros r d. subst r d. unfold originalRange. cbv zeta.
  set (d := textSizeDiff this ev).
  destruct (Z.eqb_spec (selectionEnd this - selectionStart this) 0) as [Hs | Hs];
    destruct (Z.ltb_spec d 0) as [Hd | Hd];
    destruct (Z.ltb_spec (HTMLTextAreaElement.selectionEnd (inputNode this))
                (selectionEnd this)) as [Hn | Hn];
    destruct (Z.eqb_spec (HTMLTextAreaElement.selectionEnd (inputNode this))
                (selectionEnd this)) as [He | He];
    simpl; repeat split; try lia; auto; right; repeat split; lia.
Qed.

Lemma originalRange_cases_witness :
  Range.start (originalRange (component (js "hello") [] 1 1 ello) ello)
  <= Range.end_ (originalRange (component (js "hello") [] 1 1 ello) ello)
  /\ Range.end_ (originalRange (component (js "hello") [] 1 1 ello) ello)
     - Range.start (originalRange (component (js "hello") [] 1 1 ello) ello)
     = - textSizeDiff (component (js "hello") [] 1 1 ello) ello.
Proof.
  split.
  - apply (proj1 (proj2 (originalRange_cases (component (js "hello") [] 1 1 ello) ello))).
    simpl. lia.
  - apply (proj2 (proj2 (originalRange_cases (component (js "hello") [] 1 1 ello) ello))).
    + reflexivity.
    + vm_compute. reflexivity.
    + simpl. lia.
Defined.

Lemma newEntities_valid (es : list Entity.t) (r : Range.t) (d oldLength : Z) :
  Forall (validEntity oldLength) es ->
  0 <= Range.start r -> Range.start r <= Range.end_ r -> Range.end_ r <= oldLength ->
  - (Range.end_ r - Range.start r) <= d ->
  Forall (validEntity (oldLength + d)) (newEntities es r d).
Proof.
  intros Hold Hr0 Hr1 Hr2 Hd.
  apply Forall_forall. intros x Hx.
  rewrite Forall_forall in Hold.
  apply In_newEntities in Hx.
  destruct Hx as [Hlt [[Hin Hc] | [[e [Hin [Hc ->]]] | [e [Hin [Hc ->]]]]]].
  - destruct (Hold x Hin) as [H0 [H1 H2]].
    unfold validEntity. classify. lia.
  - destruct (Hold e Hin) as [H0 [H1 H2]].
    unfold validEntity, grow in *. classify. lia.
  - destruct (Hold e Hin) as [H0 [H1 H2]].
    unfold validEntity, shift in *. classify. lia.
Qed.

(** The span invariant, from what the text area guarantees.  When the
    previous selection is a range of the old text, the new caret is an
    offset of the new text, a deletion without selection did not move the
    caret forward, and the replacement of a selection removed no more than
    the selection, every entity passed to [onChange] satisfies
    [0 <= start < end <= newText.length], provided the old ones satisfied it
    for the old text. *)
Theorem textChange_keeps_invariant
  (this : EntityHighlighter) (ev : HTMLTextAreaElement.t) :
  let oldText := text (props this) in
  let newText := HTMLTextAreaElement.value ev in
  let d := textSizeDiff this ev in
  Forall (validEntity (len oldText)) (entities (props this)) ->
  0 <= selectionStart this ->
  selectionStart this <= selectionEnd this ->
  selectionEnd this <= len oldText ->
  0 <= HTMLTextAreaElement.selectionStart (inputNode this) ->
  HTMLTextAreaElement.selectionStart (inputNode this) <= len newText ->
  (selectionStart this = selectionEnd this -> d < 0 ->
   HTMLTextAreaElement.selectionEnd (inputNode this) <= selectionEnd this) ->
  (selectionStart this < selectionEnd this ->
   - (selectionEnd this - selectionStart this) <= d) ->
  Forall (validEntity (len newText)) (snd (onChange (textChange this ev))).
Proof.
  intros oldText newText d Hv H0 H1 H2 Hn0 Hn1 Hdel Hrep.
  rewrite textChange_onChange. simpl snd.
  replace (len newText) with (len oldText + d)
    by (subst d; unfold textSizeDiff; fold oldText; fold newText; lia).
  assert (Hlen : len newText = len oldText + d)
    by (subst d; unfold textSizeDiff; fold oldText; fold newText; lia).
  fold d.
  destruct (originalRange_cases this ev) as [[Hr | [Hs [Hd [Hc Hr]]]] _];
    cbv zeta in Hr; fold d in Hr; try fold d in Hd; rewrite Hr.
  - apply newEntities_valid; simpl; try assumption.
    destruct (Z.eq_dec (selectionStart this) (selectionEnd this)) as [Heq | Hne].
    + destruct (Z.ltb_spec d 0) as [Hneg | Hpos]; [|lia].
      (* a deletion without selection whose caret did not move forward takes
         the other branch *)
      exfalso. specialize (Hdel Heq Hneg).
      revert Hr. unfold originalRange. cbv zeta. fold d.
      replace (selectionEnd this - selectionStart this =? 0) with true
        by (symmetry; apply Z.eqb_eq; lia).
      replace (d <? 0) with true by (symmetry; apply Z.ltb_lt; lia).
      simpl.
      destruct (Z.ltb_spec (HTMLTextAreaElement.selectionEnd (inputNode this))
                  (selectionEnd this));
        destruct (Z.eqb_spec (HTMLTextAreaElement.selectionEnd (inputNode this))
                    (selectionEnd this)); simpl; try lia;
        intro Hr; injection Hr; intros; lia.
    + apply Hrep. lia.
  - apply newEntities_valid; simpl; try assumption; lia.
Qed.

Lemma textChange_keeps_invariant_witness :
  Forall (validEntity 5)
         (snd (onChange (textChange
                           (component (js "abcdefg")
                              [Entity.mk 0 1 (js "a"); Entity.mk 0 7 (js "b");
                               Entity.mk 5 7 (js "c")] 1 4 azefg) azefg))).
Proof.
  apply (textChange_keeps_invariant
           (component (js "abcdefg")
              [Entity.mk 0 1 (js "a"); Entity.mk 0 7 (js "b"); Entity.mk 5 7 (js "c")]
              1 4 azefg) azefg); simpl.
  - repeat constructor; vm_compute; congruence.
  - lia.
  - lia.
  - vm_compute. congruence.
  - lia.
  - vm_compute. congruence.
  - intro H. discriminate H.
  - intros _. vm_compute. congruence.
Defined.

(** ** Segmentation: what the chunks are *)

Lemma bounds_strongly_sorted (es : list Entity.t) : StronglySorted Z.le (bounds es).
Proof.
  apply Sorted_StronglySorted.
  - intros x y z Hxy Hyz. lia.
  - apply bounds_sorted.
Qed.

(** The start and the end of every entity are bounds. *)
Lemma In_bounds (es : list Entity.t) (e : Entity.t) :
  In e es -> In (Entity.start e) (bounds es) /\ In (Entity.end_ e) (bounds es).
Proof.
  intro He. unfold bounds, sortAscending.
  split; apply (Permutation_in _ (ZSort.Permuted_sort _)); apply in_concat;
    exists [Entity.start e; Entity.end_ e]; (split; [|simpl; auto]);
    apply in_map_iff; exists e; auto.
Qed.

Lemma bounds_length (es : list Entity.t) :
  List.length (bounds es) = (2 * List.length es)%nat.
Proof.
  unfold bounds, sortAscending.
  rewrite <- (Permutation_length (ZSort.Permuted_sort _)).
  induction es as [|e es IH]; simpl; [reflexivity|]. rewrite IH. lia.
Qed.

Lemma pairs_length (l : list Z) : List.length (pairs l) = (List.length l - 1)%nat.
Proof.
  induction l as [|a l IH]; [reflexivity|].
  destruct l as [|b l]; [reflexivity|].
  change (pairs (a :: b :: l)) with (Range.mk a b :: pairs (b :: l)).
  simpl List.length in *. lia.
Qed.

Lemma pairs_start_In (l : list Z) :
  forall a z r, In r (pairs (a :: l ++ [z])) -> In (Range.start r) (a :: l).
Proof.
  induction l as [|b l IH]; intros a z r Hr.
  - destruct Hr as [<- | []]. left. reflexivity.
  - change (pairs (a :: (b :: l) ++ [z]))
      with (Range.mk a b :: pairs (b :: l ++ [z])) in Hr.
    destruct Hr as [<- | Hr]; [left; reflexivity|].
    right. apply (IH b z r Hr).
Qed.

(** No inner bound lies strictly between the two ends of a candidate
    range. *)
Lemma pairs_gap (l : list Z) :
  StronglySorted Z.le l ->
  forall a z r y, In r (pairs (a :: l ++ [z])) -> In y l ->
                  y <= Range.start r \/ Range.end_ r <= y.
Proof.
  induction 1 as [|b l Hs IH Hb]; intros a z r y Hr Hy; [destruct Hy|].
  rewrite Forall_forall in Hb.
  change (pairs (a :: (b :: l) ++ [z]))
    with (Range.mk a b :: pairs (b :: l ++ [z])) in Hr.
  destruct Hr as [<- | Hr].
  - right. simpl. destruct Hy as [<- | Hy]; [lia | apply Hb; exact Hy].
  - destruct Hy as [<- | Hy].
    + left. apply pairs_start_In in Hr.
      destruct Hr as [<- | Hr]; [lia | apply Hb; exact Hr].
    + apply (IH b z r y Hr Hy).
Qed.

(** A range of the segmentation is inside an entity or apart from it. *)
Lemma range_inside_or_apart (text : jsstring) (es : list Entity.t)
  (r : Range.t) (e : Entity.t) :
  In r (pairs (0 :: bounds es ++ [len text])) -> In e es ->
  rangeIsInsideEntity e r = true
  \/ Entity.end_ e <= Range.start r \/ Range.end_ r <= Entity.start e.
Proof.
  intros Hr He. destruct (In_bounds es e He) as [Hs Ht].
  pose proof (pairs_gap _ (bounds_strongly_sorted es) 0 (len text) r) as Hgap.
  destruct (Hgap _ Hr Hs) as [H1 | H1]; destruct (Hgap _ Hr Ht) as [H2 | H2];
    try (right; lia).
  left. classify. lia.
Qed.

(** Chunks are homogeneous: every range of the segmentation is either
    entirely inside an entity (the entity is in the covering set of the
    chunk) or has no offset in common with it, for every entity, whatever
    the offsets of the entities are. *)
Theorem ranges_inside_or_apart :
  forall (text : jsstring) (es : list Entity.t),
  exists rs,
    ranges text es = Some rs
    /\ Forall (fun r =>
                 Forall (fun e => In e (rangeBelongsToEntities es r)
                                  \/ Entity.end_ e <= Range.start r
                                  \/ Range.end_ r <= Entity.start e) es) rs.
Proof.
  intros text es.
  exists (filter nonEmpty (pairs (0 :: bounds es ++ [len text]))).
  split; [apply ranges_pairs|].
  apply Forall_forall. intros r Hr. apply filter_In in Hr. destruct Hr as [Hr _].
  apply Forall_forall. intros e He.
  destruct (range_inside_or_apart text es r e Hr He) as [H | H].
  - left. unfold rangeBelongsToEntities. apply filter_In. auto.
  - right. exact H.
Qed.

(** The entities that cover a chunk are the entities under the cursor at
    any offset of the chunk: [findEntities] at an offset of a range of the
    segmentation is [rangeBelongsToEntities] of that range. *)
Theorem findEntities_in_chunk :
  forall this : EntityHighlighter,
  exists rs,
    ranges (text (props this)) (entities (props this)) = Some rs
    /\ Forall (fun r => forall positionInText,
                   inRange r positionInText ->
                   findEntities this positionInText
                   = rangeBelongsToEntities (entities (props this)) r) rs.
Proof.
  intro this.
  exists (filter nonEmpty (pairs (0 :: bounds (entities (props this))
                                    ++ [len (text (props this))]))).
  split; [apply ranges_pairs|].
  apply Forall_forall. intros r Hr. apply filter_In in Hr. destruct Hr as [Hr _].
  intros pos [Hp1 Hp2].
  unfold findEntities, rangeBelongsToEntities.
  apply filter_ext_in. intros e He.
  destruct (range_inside_or_apart _ _ r e Hr He) as [H | H].
  - rewrite H. classify. lia.
  - destruct (rangeIsInsideEntity e r) eqn:Hi.
    + classify. lia.
    + classify. lia.
Qed.

Lemma findEntities_in_chunk_witness :
  findEntities (component (js "hello world")
                  [Entity.mk 0 5 (js "A"); Entity.mk 2 7 (js "B")] 3 3 helloBang) 3
  = rangeBelongsToEntities [Entity.mk 0 5 (js "A"); Entity.mk 2 7 (js "B")] (Range.mk 2 5).
Proof.
  destruct (findEntities_in_chunk
              (component (js "hello world")
                 [Entity.mk 0 5 (js "A"); Entity.mk 2 7 (js "B")] 3 3 helloBang))
    as [rs [Hrs HF]].
  vm_compute in Hrs. injection Hrs as <-.
  apply Forall_inv_tail, Forall_inv in HF.
  apply HF. unfold inRange. simpl. lia.
Defined.

Lemma pairs_cover (l : list Z) :
  forall a z pos,
    a <= pos -> pos < z ->
    exists r, In r (filter nonEmpty (pairs (a :: l ++ [z]))) /\ inRange r pos.
Proof.
  induction l as [|b l IH]; intros a z pos Ha Hz.
  - exists (Range.mk a z). split.
    + simpl. unfold nonEmpty. simpl.
      replace (z >? a) with true by (symmetry; rewrite Z.gtb_ltb; apply Z.ltb_lt; lia).
      left. reflexivity.
    + unfold inRange. simpl. lia.
  - change (pairs (a :: (b :: l) ++ [z]))
      with (Range.mk a b :: pairs (b :: l ++ [z])).
    destruct (Z.lt_ge_cases pos b) as [Hb | Hb].
    + exists (Range.mk a b). split.
      * apply filter_In. split; [left; reflexivity|].
        unfold nonEmpty. simpl. rewrite Z.gtb_ltb. apply Z.ltb_lt. lia.
      * unfold inRange. simpl. lia.
    + destruct (IH b z pos Hb Hz) as [r [Hr Hp]].
      exists r. split; [|exact Hp].
      apply filter_In in Hr. apply filter_In. split; [right|]; tauto.
Qed.

(** Every offset of the text is in a chunk, whatever the entities are. *)
Theorem ranges_cover_text :
  forall (text : jsstring) (es : list Entity.t) (positionInText : Z),
    0 <= positionInText -> positionInText < len text ->
    exists rs r,
      ranges text es = Some rs /\ In r rs /\ inRange r positionInText.
Proof.
  intros text es pos H0 H1.
  destruct (pairs_cover (bounds es) 0 (len text) pos H0 H1) as [r [Hr Hp]].
  exists (filter nonEmpty (pairs (0 :: bounds es ++ [len text]))), r.
  split; [apply ranges_pairs|]. split; assumption.
Qed.

Lemma ranges_cover_text_witness :
  exists rs r,
    ranges (js "abc") [Entity.mk (-5) (-2) (js "A"); Entity.mk 2 7 (js "B")] = Some rs
    /\ In r rs /\ inRange r 1.
Proof.
  apply (ranges_cover_text (js "abc")
           [Entity.mk (-5) (-2) (js "A"); Entity.mk 2 7 (js "B")] 1).
  - lia.
  - vm_compute. reflexivity.
Defined.

(** [n] entities give at most [2 n + 1] chunks, and [getTextNodes] returns
    one node per range. *)
Theorem chunks_are_few :
  forall (text : jsstring) (es : list Entity.t),
  exists rs nodes,
    ranges text es = Some rs
    /\ getTextNodes text es = Some nodes
    /\ len nodes = len rs
    /\ len rs <= 2 * len es + 1.
Proof.
  intros text es.
  destruct (getTextNodes_total text es) as [nodes [Hn HF]].
  exists (filter nonEmpty (pairs (0 :: bounds es ++ [len text]))), nodes.
  split; [apply ranges_pairs|]. split; [exact Hn|]. split.
  - pose proof (Forall2_length HF) as Hl. unfold len in *. lia.
  - pose proof (filter_length_le nonEmpty (pairs (0 :: bounds es ++ [len text]))) as Hle.
    rewrite pairs_length in Hle. rewrite length_cons, length_app, bounds_length in Hle.
    change (List.length [len text]) with 1%nat in Hle.
    unfold len in *. lia.
Qed.

Lemma substring_all (text : jsstring) : substring text 0 (len text) = text.
Proof.
  pose proof (len_nonneg text) as H.
  rewrite substring_seg by (unfold clamp; lia).
  replace (clamp text 0) with 0 by (unfold clamp; lia).
  replace (clamp text (len text)) with (len text) by (unfold clamp; lia).
  apply seg_all.
Qed.

(** Without entities the whole text is one node without colour, and the
    empty text gives no node. *)
Theorem getTextNodes_without_entities :
  forall text : jsstring,
    getTextNodes text []
    = Some (if len text >? 0 then [TextNode.mk text EmptyString] else []).
Proof.
  intro text. unfold getTextNodes, ranges.
  change (bounds []) with (@nil Z).
  cbn [app getRanges filter Range.start Range.end_].
  destruct (len text >? 0).
  - cbn [bind mapM]. unfold textNode. cbn [rangeBelongsToEntities filter].
    change (getTextNodeColor []) with (Some EmptyString).
    cbn [bind Range.start Range.end_]. rewrite substring_all. reflexivity.
  - reflexivity.
Qed.

(** [getRanges] returns exactly when it is given at least two bounds; the
    ranges it returns are not empty, and there are fewer of them than
    accumulated ranges and bounds together. *)
Theorem getRanges_returns (bs : list Z) (acc : list Range.t) :
  (getRanges bs acc = None <-> (List.length bs < 2)%nat)
  /\ (forall rs, getRanges bs acc = Some rs ->
                 Forall (fun r => Range.start r < Range.end_ r) rs
                 /\ (List.length rs < List.length acc + List.length bs)%nat).
Proof.
  destruct (Nat.lt_ge_cases (List.length bs) 2) as [Hlt | Hge].
  - assert (Hn : getRanges bs acc = None).
    { destruct bs as [|a [|b bs]]; try reflexivity. simpl in Hlt. lia. }
    split; [tauto|]. intros rs H. congruence.
  - rewrite (getRanges_pairs bs acc Hge). split.
    + split; [discriminate | lia].
    + intros rs H. injection H as <-. split.
      * apply Forall_forall. intros r Hr. apply filter_In in Hr.
        destruct Hr as [_ Hr]. unfold nonEmpty in Hr.
        rewrite Z.gtb_ltb in Hr. apply Z.ltb_lt. exact Hr.
      * pose proof (filter_length_le nonEmpty (acc ++ pairs bs)) as Hle.
        rewrite length_app, pairs_length in Hle. lia.
Qed.

Lemma getRanges_returns_witness :
  Forall (fun r => Range.start r < Range.end_ r) [Range.mk 0 2; Range.mk 2 5]
  /\ (List.length [Range.mk 0 2; Range.mk 2 5] < List.length (@nil Range.t)
                                                 + List.length [0; 2; 2; 5])%nat.
Proof.
  apply (proj2 (getRanges_returns [0; 2; 2; 5] [])). reflexivity.
Defined.

(** ** The hash of a label *)

Lemma toInt32_range (z : Z) : int32 (toInt32 z).
Proof.
  unfold int32, toInt32. cbv zeta.
  pose proof (Z.mod_pos_bound z (2 ^ 32)) as H.
  destruct (Z.ltb_spec (z mod 2 ^ 32) (2 ^ 31)); lia.
Qed.

Lemma hash31_range (str : jsstring) : int32 (hash31 str).
Proof.
  unfold hash31.
  assert (H : forall l h, int32 h ->
                          int32 (fold_left (fun hash c => toInt32 (hash * 31 + Z.of_N c)) l h)).
  { induction l as [|c l IH]; intros h Hh; simpl.
    - exact Hh.
    - apply IH. apply toInt32_range. }
  apply H. unfold int32. lia.
Qed.

(** [hashString] is not negative and at most [2^31] (the negation of the
    smallest 32-bit integer is not a 32-bit integer), and it is 0 for the
    empty string. *)
Theorem hashString_range :
  forall str : jsstring,
    0 <= hashString str /\ hashString str <= 2 ^ 31 /\ hashString [] = 0.
Proof.
  intro str. rewrite hashString_hash31.
  pose proof (hash31_range str) as H. unfold int32 in H.
  split; [lia|]. split; [lia | reflexivity].
Qed.

(** ** The highlight layer *)

Lemma renderSpans_app (nodes1 nodes2 : list TextNode.t) :
  forall counter,
    renderSpans (nodes1 ++ nodes2) counter
    = (fst (renderSpans nodes1 counter)
         ++ fst (renderSpans nodes2 (snd (renderSpans nodes1 counter))),
       snd (renderSpans nodes2 (snd (renderSpans nodes1 counter)))).
Proof.
  induction nodes1 as [|n nodes1 IH]; intro counter.
  - simpl. destruct (renderSpans nodes2 counter). reflexivity.
  - cbn [renderSpans app getKey]. rewrite IH.
    destruct (renderSpans nodes1 (counter + 1)) as [s1 c1]. simpl.
    reflexivity.
Qed.

(** The keys of a rendering are the consecutive numbers from the counter
    on. *)
Lemma renderSpans_keys (nodes : list TextNode.t) :
  forall counter,
    snd (renderSpans nodes counter) = counter + len nodes
    /\ List.length (fst (renderSpans nodes counter)) = List.length nodes
    /\ Forall (fun s => counter <= key s /\ key s < counter + len nodes)
              (fst (renderSpans nodes counter))
    /\ NoDup (map key (fst (renderSpans nodes counter))).
Proof.
  induction nodes as [|n nodes IH]; intro counter.
  - simpl. repeat split; try constructor. unfold len. simpl. lia.
  - cbn [renderSpans getKey].
    destruct (IH (counter + 1)) as [Hc [Hl [Hk Hn]]].
    destruct (renderSpans nodes (counter + 1)) as [spans c'].
    cbn [fst snd] in *.
    assert (Hlen : len (n :: nodes) = len nodes + 1)
      by (unfold len; rewrite length_cons; lia).
    rewrite Hlen. split; [lia|]. split; [simpl; lia|]. split.
    + constructor; [simpl; pose proof (len_nonneg nodes); lia|].
      apply Forall_forall. intros s Hs. rewrite Forall_forall in Hk.
      specialize (Hk s Hs). lia.
    + cbn [map key]. constructor; [|exact Hn].
      intro Hin. apply in_map_iff in Hin. destruct Hin as [s [Hs Hin]].
      rewrite Forall_forall in Hk. specialize (Hk s Hin). lia.
Qed.

(** Keys are never reused: the spans of two renderings that follow one
    another, of any two components, have pairwise different keys, and the
    counter advances by the number of spans. *)
Theorem renderHighlights_keys_are_unique :
  forall (this1 this2 : EntityHighlighter) (counter : Z),
  exists spans1 counter1 spans2 counter2,
    renderHighlights this1 counter = Some (spans1, counter1)
    /\ renderHighlights this2 counter1 = Some (spans2, counter2)
    /\ NoDup (map key (spans1 ++ spans2))
    /\ counter2 = counter + len spans1 + len spans2.
Proof.
  intros this1 this2 counter. unfold renderHighlights.
  destruct (getTextNodes_total (text (props this1)) (entities (props this1)))
    as [nodes1 [H1 _]].
  destruct (getTextNodes_total (text (props this2)) (entities (props this2)))
    as [nodes2 [H2 _]].
  rewrite H1, H2. cbn [bind].
  exists (fst (renderSpans nodes1 counter)), (snd (renderSpans nodes1 counter)),
    (fst (renderSpans nodes2 (snd (renderSpans nodes1 counter)))),
    (snd (renderSpans nodes2 (snd (renderSpans nodes1 counter)))).
  split; [rewrite <- surjective_pairing; reflexivity|].
  split; [rewrite <- surjective_pairing; reflexivity|].
  pose proof (renderSpans_keys (nodes1 ++ nodes2) counter) as [_ [_ [_ Hn]]].
  rewrite renderSpans_app in Hn. cbn [fst] in Hn.
  split; [exact Hn|].
  destruct (renderSpans_keys nodes1 counter) as [Hc1 [Hl1 _]].
  destruct (renderSpans_keys nodes2 (snd (renderSpans nodes1 counter))) as [Hc2 [Hl2 _]].
  unfold len. rewrite Hl1, Hl2, Hc2, Hc1. unfold len. lia.
Qed.

Lemma palette_colors_visible :
  Forall (fun c => colorOrNone (Color.bg c) = Color.bg c
                   /\ Color.bg c <> "none"%string) colors.
Proof. repeat constructor; discriminate. Qed.

(** A colour that is painted as [none] is the colour of no entity. *)
Lemma getTextNodeColor_none (l : list Entity.t) (c : string) :
  getTextNodeColor l = Some c ->
  (colorOrNone c = "none"%string <-> l = []).
Proof.
  destruct l as [|e1 [|e2 l]]; intro H.
  - injection H as <-. split; reflexivity.
  - destruct (getTextNodeColor_one e1) as [col [Hnth Hc]].
    rewrite Hc in H. injection H as <-.
    apply nth_error_In in Hnth.
    pose proof palette_colors_visible as Hp. rewrite Forall_forall in Hp.
    destruct (Hp col Hnth) as [Hv Hnone]. rewrite Hv.
    split; [contradiction | discriminate].
  - rewrite getTextNodeColor_many in H. injection H as <-.
    split; discriminate.
Qed.

Lemma renderSpans_Forall2 (nodes : list TextNode.t) :
  forall counter,
    Forall2 (fun node span => children span = TextNode.text node
                              /\ backgroundColor span = colorOrNone (TextNode.color node))
            nodes (fst (renderSpans nodes counter)).
Proof.
  induction nodes as [|n nodes IH]; intro counter.
  - constructor.
  - cbn [renderSpans getKey]. specialize (IH (counter + 1)).
    destruct (renderSpans nodes (counter + 1)) as [spans c'].
    cbn [fst] in *. constructor; [split; reflexivity | exact IH].
Qed.

(** The highlight layer has one span per chunk, with the text of the chunk;
    the span is painted [none] exactly when no entity covers the chunk. *)
Theorem renderHighlights_spans :
  forall (this : EntityHighlighter) (counter : Z),
  exists rs spans counter',
    ranges (text (props this)) (entities (props this)) = Some rs
    /\ renderHighlights this counter = Some (spans, counter')
    /\ Forall2 (fun r span =>
                  children span = chunk (text (props this)) r
                  /\ (backgroundColor span = "none"%string
                      <-> rangeBelongsToEntities (entities (props this)) r = []))
               rs spans.
Proof.
  intros this counter. unfold renderHighlights.
  destruct (getTextNodes_total (text (props this)) (entities (props this)))
    as [nodes [Hn HF]].
  rewrite Hn. cbn [bind].
  exists (filter nonEmpty (pairs (0 :: bounds (entities (props this))
                                    ++ [len (text (props this))]))),
    (fst (renderSpans nodes counter)), (snd (renderSpans nodes counter)).
  split; [apply ranges_pairs|].
  split; [rewrite <- surjective_pairing; reflexivity|].
  pose proof (renderSpans_Forall2 nodes counter) as HS.
  revert HS. generalize (fst (renderSpans nodes counter)). clear Hn.
  induction HF as [|r node rs nodes Hx _ IH]; intros spans HS; inversion HS; subst.
  - constructor.
  - constructor; [|apply IH; assumption].
    apply textNode_inv in Hx. destruct Hx as [Ht Hc].
    match goal with H : _ /\ _ |- _ => destruct H as [Hch Hbg] end.
    rewrite Hch, Hbg, Ht. split; [reflexivity|].
    apply getTextNodeColor_none. exact Hc.
Qed.

(** ** The entities under the cursor *)

(** The lines under the text area are the entities that contain the cursor
    position, in the order of the list (none is rendered when there is no
    such entity).  Each line shows the text and the label of its entity, and
    its button deletes one entity, the first one of the list with the same
    start, end and label: it never meets the case of [deleteEntity] without
    a match. *)
Theorem renderEntitiesUnderCursor_rows :
  forall this : EntityHighlighter,
    let cursor := cursorPosition (state this) in
    match renderEntitiesUnderCursor this with
    | None => findEntities this cursor = []
    | Some rows =>
        rows <> []
        /\ map onClick rows = findEntities this cursor
        /\ Forall (fun row =>
                     let e := onClick row in
                     In e (entities (props this))
                     /\ (Entity.start e <= cursor /\ cursor < Entity.end_ e)
                     /\ rowText row = substring (text (props this))
                                                (Entity.start e) (Entity.end_ e)
                     /\ rowLabel row = Entity.label e
                     /\ exists es1 es2,
                         entities (props this) = es1 ++ e :: es2
                         /\ ~ In e es1
                         /\ onChange (deleteEntity this e)
                            = (text (props this), es1 ++ es2)) rows
    end.
Proof.
  intros this cursor. unfold renderEntitiesUnderCursor. fold cursor.
  destruct (findEntities this cursor) as [|e0 found] eqn:Hf.
  - reflexivity.
  - replace (len (e0 :: found) >? 0) with true
      by (symmetry; rewrite Z.gtb_ltb; apply Z.ltb_lt; unfold len;
          rewrite length_cons; lia).
    split; [discriminate|]. split.
    + rewrite map_map. simpl. f_equal. apply map_id.
    + apply Forall_forall. intros row Hrow.
      apply in_map_iff in Hrow. destruct Hrow as [e [<- He]]. cbn [onClick rowText rowLabel].
      rewrite <- Hf in He. unfold findEntities in He. apply filter_In in He.
      destruct He as [Hin Hc].
      split; [exact Hin|]. split; [classify; lia|].
      split; [reflexivity|]. split; [reflexivity|].
      apply deleteEntity_removes_first_occurrence. exact Hin.
Qed.

(** ** The cursor position *)

(** At every rendering the cursor position of the state is the selection
    start that the component recorded, whatever the user, the host and the
    handlers did before. *)
Theorem cursorPosition_is_selectionStart (this : EntityHighlighter) :
  reachable this -> cursorPosition (state this) = selectionStart this.
Proof.
  induction 1 as [props node | this node _ IH | this props' _ IH
                 | this target _ IH | this value _ IH].
  - reflexivity.
  - exact IH.
  - exact IH.
  - destruct target; [reflexivity | exact IH].
  - exact IH.
Qed.

Lemma cursorPosition_is_selectionStart_witness :
  cursorPosition
    (state (selectionChangeHandler
              (mkComponent (mkProps (js "hello") []) (mkState [] 0)
                           (HTMLTextAreaElement.mk (js "hello") 2 4) 0 0)
              TheInputNode))
  = 2.
Proof.
  apply (cursorPosition_is_selectionStart
           (selectionChangeHandler
              (mkComponent (mkProps (js "hello") []) (mkState [] 0)
                           (HTMLTextAreaElement.mk (js "hello") 2 4) 0 0)
              TheInputNode)).
  apply reach_selection.
  apply (reach_mounted (mkProps (js "hello") []) (HTMLTextAreaElement.mk (js "hello") 2 4)).
Defined.
